(** * my-tanstack-query-strategy: the query-client lifecycle, the posts
      query options and the mock posts endpoint

    A shallow embedding of

    - [src/lib/get-query-client.ts]  ([makeQueryClient], [getQueryClient],
      the module variable [browserQueryClient]),
    - [src/hooks/usePosts.ts]        ([Post], [PostsResponse],
      [postsQueryOptions], [usePosts], [usePostsSuspense]),
    - the route handler of [/api/posts] ([posts], [GET]),
    - the prefetch of [src/app/ssr/page.tsx] and [src/app/streaming/page.tsx],

    followed by the properties proved about them.

    Conventions of the embedding.
    - A JavaScript number is an exact integer or NaN ([number]); delays in
      milliseconds that are known to be numbers are plain [Z].  Rounding to
      a double above 2^53 and the sign of zero are not represented.
    - A JavaScript string is a [string] of UTF-8 bytes.
    - Objects live in a heap and are named by references; reference
      equality of the source ([===] on objects) is equality of references.
    - Module-level bindings are fields of an explicit state which every
      function threads through a state monad. *)

From stdpp Require Import base option list strings gmap.
From Stdlib Require Import ZArith Lia Ascii.

Open Scope string_scope.
Open Scope list_scope.
Open Scope Z_scope.

(* ===================================================================== *)
(** * Part I: definitions                                                 *)
(* ===================================================================== *)

(** ** A state monad for module-level and runtime state *)

Definition State (S A : Type) : Type := S -> A * S.

Definition ret {S A : Type} (a : A) : State S A := fun s => (a, s).

Definition bind {S A B : Type} (m : State S A) (k : A -> State S B) : State S B :=
  fun s => let (a, s') := m s in k a s'.

Notation "'let!' x ':=' m 'in' k" := (bind m (fun x => k))
  (at level 10, x name, m at level 100, k at level 200).
Notation "'run!' m 'in' k" := (bind m (fun _ => k))
  (at level 10, m at level 100, k at level 200).

(** ** JavaScript values used by the sources *)

Module JS.

(** The number type, restricted to what [parseInt] can return. *)
Inductive number : Type :=
| NaN
| Num (z : Z).

Definition code (c : ascii) : Z := Z.of_N (N_of_ascii c).

(** [WhiteSpace] and [LineTerminator] code points of one, two and three
    UTF-8 bytes: TAB, LF, VT, FF, CR, SP; U+00A0; U+1680, U+2000..U+200A,
    U+2028, U+2029, U+202F, U+205F, U+3000, U+FEFF. *)
Definition isWhite1 (a : ascii) : bool :=
  ((9 <=? code a) && (code a <=? 13)) || (code a =? 32).

Definition isWhite2 (a b : ascii) : bool :=
  (code a =? 194) && (code b =? 160).

Definition isWhite3 (a b c : ascii) : bool :=
  ((code a =? 225) && (code b =? 154) && (code c =? 128))
  || ((code a =? 226) && (code b =? 128)
      && (((128 <=? code c) && (code c <=? 138))
          || (code c =? 168) || (code c =? 169) || (code c =? 175)))
  || ((code a =? 226) && (code b =? 129) && (code c =? 159))
  || ((code a =? 227) && (code b =? 128) && (code c =? 128))
  || ((code a =? 239) && (code b =? 187) && (code c =? 191)).

(** Removal of leading white space ([TrimString(_, start)]). *)
Fixpoint trimStart (s : string) : string :=
  match s with
  | EmptyString => s
  | String a r1 =>
      if isWhite1 a then trimStart r1 else
      match r1 with
      | EmptyString => s
      | String b r2 =>
          if isWhite2 a b then trimStart r2 else
          match r2 with
          | EmptyString => s
          | String c r3 => if isWhite3 a b c then trimStart r3 else s
          end
      end
  end.

(** Value of a character as a digit: 0-9, a-z, A-Z; [None] otherwise. *)
Definition digitOf (c : ascii) : option Z :=
  let n := code c in
  if (48 <=? n) && (n <=? 57) then Some (n - 48)
  else if (97 <=? n) && (n <=? 122) then Some (n - 87)
  else if (65 <=? n) && (n <=? 90) then Some (n - 55)
  else None.

Definition radixDigit (R : Z) (c : ascii) : option Z :=
  match digitOf c with
  | Some d => if d <? R then Some d else None
  | None => None
  end.

(** The longest prefix of radix-[R] digits, read as an integer;
    [None] when that prefix is empty. *)
Fixpoint readDigits (R : Z) (acc : option Z) (s : string) : option Z :=
  match s with
  | EmptyString => acc
  | String c r =>
      match radixDigit R c with
      | Some d => readDigits R (Some (R * default 0 acc + d)) r
      | None => acc
      end
  end.

Definition stripSign (s : string) : Z * string :=
  match s with
  | String c r =>
      if code c =? 45 then (-1, r)
      else if code c =? 43 then (1, r)
      else (1, s)
  | EmptyString => (1, s)
  end.

Definition strip0x (s : string) : option string :=
  match s with
  | String a (String b r) =>
      if (code a =? 48) && ((code b =? 120) || (code b =? 88))
      then Some r else None
  | _ => None
  end.

(** [parseInt(string, radix)] of ECMAScript, for an integer radix.  The
    integer read is kept exact.  It is the number JavaScript returns when
    it is a safe integer (magnitude below 2^53, see
    [JSNumber.isSafeInteger]); beyond, JavaScript returns the nearest
    double or Infinity, which [Num] does not represent: a statement that
    names the value of a parsed number is made for safe integers only. *)
Definition parseInt (input : string) (radix : Z) : number :=
  let (sign, S) := stripSign (trimStart input) in
  if (radix =? 0) || ((2 <=? radix) && (radix <=? 36)) then
    let stripPrefix := (radix =? 0) || (radix =? 16) in
    let R0 := if radix =? 0 then 10 else radix in
    let (R, Z0) :=
      match (if stripPrefix then strip0x S else None) with
      | Some rest => (16, rest)
      | None => (R0, S)
      end in
    match readDigits R None Z0 with
    | Some mathInt => Num (sign * mathInt)
    | None => NaN
    end
  else NaN.


(** Conversion of an integral number to a string (template literals,
    [String(n)]): the decimal digits, after a minus sign for a negative
    number.  JavaScript prints a safe integer (magnitude below 2^53, see
    [JSNumber.isSafeInteger]) this way; beyond, it prints the shortest
    digits of a double and, from 10^21 on, exponent notation, which this
    function does not: a statement that names the text of a number is
    made for safe integers only. *)
Definition digitChar (d : Z) : ascii := ascii_of_N (Z.to_N (48 + d)).

Fixpoint digitsOf (fuel : nat) (n : Z) (rest : string) : string :=
  match fuel with
  | O => rest
  | S fuel' =>
      let rest' := String (digitChar (n mod 10)) rest in
      if n <? 10 then rest' else digitsOf fuel' (n / 10) rest'
  end.

Definition toString (z : Z) : string :=
  if z <? 0
  then String (ascii_of_N 45) (digitsOf (S (Z.to_nat (Z.log2 (- z)))) (- z) "")
  else digitsOf (S (Z.to_nat (Z.log2 z))) z "".

(** [a || b] on an operand that is a string or [null]: the empty string
    and [null] are falsy. *)
Definition or_else (a : option string) (b : string) : string :=
  match a with
  | Some EmptyString => b
  | Some s => s
  | None => b
  end.

(** [URLSearchParams]: the decoded name/value pairs in order;
    [get] returns the first value of the name, or [null]. *)
Definition URLSearchParams : Type := list (string * string).

Fixpoint get (params : URLSearchParams) (name : string) : option string :=
  match params with
  | [] => None
  | (k, v) :: rest => if String.eqb k name then Some v else get rest name
  end.

End JS.

(** ** [src/hooks/usePosts.ts] *)

Module UsePosts.

(** [interface Post] and [interface PostsResponse]. *)
Record Post : Type := {
  id : Z;
  title : string;
  author : string;
  createdAt : string
}.

Record Meta : Type := {
  fetchedAt : string;
  totalCount : Z;
  executedOn : string
}.

Record PostsResponse : Type := {
  posts : list Post;
  meta : Meta
}.

(** An element of a query key: here a string or a number. *)
Inductive KeyPart : Type :=
| KString (s : string)
| KNumber (n : Z).

Definition QueryKey : Type := list KeyPart.

(** [queryFn] is a closure; the only one built here is
    [() => fetchPosts(delay)], represented by its captured delay. *)
Inductive QueryFn : Type :=
| FetchPosts (delay : Z).

Record QueryOptions : Type := {
  queryKey : QueryKey;
  queryFn : QueryFn
}.

(** [queryOptions] of the library is the identity on its argument. *)
Definition queryOptions (o : QueryOptions) : QueryOptions := o.

(** [(delay = 1000) => queryOptions({ queryKey: ['posts', delay],
    queryFn: () => fetchPosts(delay) })].  An omitted argument is [None]. *)
Definition postsQueryOptions (delay : option Z) : QueryOptions :=
  let delay := default 1000 delay in
  queryOptions {|
    queryKey := [KString "posts"; KNumber delay];
    queryFn := FetchPosts delay
  |}.

(** [fetchPosts = async (delay = 1000) => ...]: the query of the URL it
    requests, [`${baseUrl}/api/posts?delay=${delay}`], as the name/value
    pairs the endpoint decodes from it. *)
Definition fetchPosts_searchParams (delay : option Z) : JS.URLSearchParams :=
  let delay := default 1000 delay in
  [("delay", JS.toString delay)].

(** The two library hooks and the client method that consume options.
    The library is not part of the repository: a consumer is recorded as
    the call it makes, which hook or method and on which options. *)
Inductive LibraryCall : Type :=
| useQuery (o : QueryOptions)
| useSuspenseQuery (o : QueryOptions)
| prefetchQuery (o : QueryOptions).

Definition optionsOf (c : LibraryCall) : QueryOptions :=
  match c with
  | useQuery o | useSuspenseQuery o | prefetchQuery o => o
  end.

(** [export const usePosts = (delay = 1000) =>
      useQuery(postsQueryOptions(delay))]. *)
Definition usePosts (delay : option Z) : LibraryCall :=
  let delay := default 1000 delay in
  useQuery (postsQueryOptions (Some delay)).

(** [export const usePostsSuspense = (delay = 1000) =>
      useSuspenseQuery(postsQueryOptions(delay))]. *)
Definition usePostsSuspense (delay : option Z) : LibraryCall :=
  let delay := default 1000 delay in
  useSuspenseQuery (postsQueryOptions (Some delay)).

End UsePosts.

(** ** The part of the query library the repository relies on

    [@tanstack/react-query] is an external dependency.  Only its contract
    towards the sources above is represented: a client object holds the
    options it was constructed with and a query cache whose entries are
    addressed by query key; [prefetchQuery] fills the addressed entry when
    it is empty, the two hooks read the addressed entry. *)

Module TanStack.
Import UsePosts.

#[global] Instance KeyPart_eq_dec : EqDecision KeyPart.
Proof. solve_decision. Defined.

#[global] Instance KeyPart_countable : Countable KeyPart :=
  inj_countable'
    (fun k => match k with KString s => inl s | KNumber n => inr n end)
    (fun x => match x with inl s => KString s | inr n => KNumber n end)
    (fun k => match k with KString _ | KNumber _ => eq_refl end).

Abbreviation QueryCache := (gmap QueryKey PostsResponse).

(** [defaultOptions.queries] as far as the repository sets it. *)
Record QueriesOptions : Type := {
  staleTime : Z;
  refetchOnWindowFocus : bool;
  retry : Z
}.

Record DefaultOptions : Type := {
  queries : QueriesOptions
}.

Record QueryClientConfig : Type := {
  defaultOptions : DefaultOptions
}.

(** A [QueryClient] object. *)
Record QueryClient : Type := {
  config : QueryClientConfig;
  queryCache : QueryCache
}.

(** [new QueryClient(config)], as a value: the given options, no entry. *)
Definition newQueryClient (c : QueryClientConfig) : QueryClient :=
  {| config := c; queryCache := ∅ |}.

(** The cache entry a call addresses. *)
Definition addressed (c : LibraryCall) : QueryKey := queryKey (optionsOf c).

(** What a call does to a cache and what it yields: the data of the
    addressed entry for a hook ([None] is [undefined], or suspension),
    nothing for a prefetch.  [network] is what a [queryFn] resolves
    with: this is the course of a fetch that succeeds.  A fetch that may
    fail is [Fetching.perform]. *)
Definition perform (network : QueryFn -> PostsResponse) (c : LibraryCall)
    (cache : QueryCache) : option PostsResponse * QueryCache :=
  match c with
  | prefetchQuery o =>
      (None,
       match cache !! queryKey o with
       | Some _ => cache
       | None => <[queryKey o := network (queryFn o)]> cache
       end)
  | useQuery o | useSuspenseQuery o => (cache !! queryKey o, cache)
  end.

End TanStack.

(** ** [src/lib/get-query-client.ts] *)

Module GetQueryClient.
Import UsePosts TanStack.

(** A reference to a [QueryClient] object: its index in the heap. *)
Definition Ref : Type := nat.

(** Accesses to the module variable [browserQueryClient]. *)
Inductive Access : Type :=
| RdVar
| WrVar (v : Ref).

(** The JavaScript process as far as this module sees it: the heap of
    [QueryClient] objects, the module variable
    [let browserQueryClient: QueryClient | undefined = undefined]
    and the log of the accesses made to that variable, oldest first. *)
Record Process : Type := {
  heap : list QueryClient;
  browserQueryClient : option Ref;
  accesses : list Access
}.

(** The process right after the module has been loaded. *)
Definition initial : Process :=
  {| heap := []; browserQueryClient := None; accesses := [] |}.

(** [new QueryClient(c)]: allocation of a fresh object. *)
Definition new_QueryClient (c : QueryClientConfig) : State Process Ref :=
  fun p =>
    (length (heap p),
     {| heap := heap p ++ [newQueryClient c];
        browserQueryClient := browserQueryClient p;
        accesses := accesses p |}).

(** Evaluation of the variable [browserQueryClient]. *)
Definition read_browserQueryClient : State Process (option Ref) :=
  fun p =>
    (browserQueryClient p,
     {| heap := heap p;
        browserQueryClient := browserQueryClient p;
        accesses := accesses p ++ [RdVar] |}).

(** The assignment [browserQueryClient = v]. *)
Definition assign_browserQueryClient (v : Ref) : State Process unit :=
  fun p =>
    (tt,
     {| heap := heap p;
        browserQueryClient := Some v;
        accesses := accesses p ++ [WrVar v] |}).

(** [!v] for [v : QueryClient | undefined]: objects are truthy. *)
Definition not_ (v : option Ref) : bool :=
  match v with
  | Some _ => false
  | None => true
  end.

Definition makeQueryClient : State Process Ref :=
  new_QueryClient {|
    defaultOptions := {|
      queries := {|
        staleTime := 60 * 1000;
        refetchOnWindowFocus := false;
        retry := 1
      |}
    |}
  |}.

(** [getQueryClient].  The imported constant [isServer] is a parameter,
    so that both environments can be exercised; the result is the value
    returned, an object reference or [undefined] ([None]). *)
Definition getQueryClient (isServer : bool) : State Process (option Ref) :=
  if isServer then
    let! c := makeQueryClient in
    ret (Some c)
  else
    let! v := read_browserQueryClient in
    run! (if not_ v then
            let! c := makeQueryClient in
            assign_browserQueryClient c
          else ret tt) in
    read_browserQueryClient.

(** A sequence of calls made one after the other in one process; the
    results are listed in call order. *)
Fixpoint calls (envs : list bool) : State Process (list (option Ref)) :=
  match envs with
  | [] => ret []
  | isServer :: rest =>
      let! r := getQueryClient isServer in
      let! rs := calls rest in
      ret (r :: rs)
  end.

(** Number of writes in an access log. *)
Definition isWrite (a : Access) : bool :=
  match a with
  | WrVar _ => true
  | RdVar => false
  end.

Definition writes (log : list Access) : nat :=
  length (List.filter isWrite log).

(** *** Vocabulary of the properties *)

(** The configuration literal of [makeQueryClient]. *)
Definition fixedConfig : QueryClientConfig :=
  {| defaultOptions :=
       {| queries :=
            {| staleTime := 60000; refetchOnWindowFocus := false; retry := 1 |} |} |}.

(** The process after one more client has been allocated. *)
Definition allocated (p : Process) : Process :=
  {| heap := heap p ++ [newQueryClient fixedConfig];
     browserQueryClient := browserQueryClient p;
     accesses := accesses p |}.

(** The stored singleton, if any, is an allocated object. *)
Definition wf (p : Process) : Prop :=
  forall r, browserQueryClient p = Some r -> (r < length (heap p))%nat.

(** The stored singleton, if any, is an object that carries the fixed
    configuration. *)
Definition configured (p : Process) : Prop :=
  forall r, browserQueryClient p = Some r ->
    exists qc, heap p !! r = Some qc /\ config qc = fixedConfig.

End GetQueryClient.

(** ** The data part of the pages

    Of [src/app/ssr/page.tsx], [src/app/ssr/SSRPostList.tsx],
    [src/app/streaming/page.tsx] and [src/app/streaming/StreamingPostList.tsx]
    only the calls that reach the query client are kept. *)

Module Pages.
Import UsePosts TanStack GetQueryClient.

(** [queryClient.m(o)] on the object behind [r]: the call is performed on
    the cache of that object, in place. *)
Definition method (network : QueryFn -> PostsResponse) (r : Ref)
    (c : LibraryCall) : State Process (option PostsResponse) :=
  fun p =>
    match heap p !! r with
    | Some qc =>
        let (res, cache) := perform network c (queryCache qc) in
        (res,
         {| heap := <[r := {| config := config qc; queryCache := cache |}]> (heap p);
            browserQueryClient := browserQueryClient p;
            accesses := accesses p |})
    | None => (None, p)
    end.

(** [await queryClient.prefetchQuery(postsQueryOptions(1500))]
    in [SSRDemoPage]. *)
Definition SSRDemoPage_prefetch : LibraryCall :=
  prefetchQuery (postsQueryOptions (Some 1500)).

(** [usePosts(1500)] in [SSRPostList]. *)
Definition SSRPostList_hook : LibraryCall := usePosts (Some 1500).

(** [await queryClient.prefetchQuery(postsQueryOptions(2000))]
    in [PostListWithData]. *)
Definition PostListWithData_prefetch : LibraryCall :=
  prefetchQuery (postsQueryOptions (Some 2000)).

(** [usePostsSuspense(2000)] in [StreamingPostList]. *)
Definition StreamingPostList_hook : LibraryCall := usePostsSuspense (Some 2000).

(** [SSRDemoPage] up to its prefetch:
    [const queryClient = getQueryClient();
     await queryClient.prefetchQuery(postsQueryOptions(1500));]
    The result is the client used; [None] stands for the [TypeError] of a
    method call on [undefined]. *)
Definition SSRDemoPage (isServer : bool) (network : QueryFn -> PostsResponse)
    : State Process (option Ref) :=
  let! queryClient := getQueryClient isServer in
  match queryClient with
  | Some r =>
      run! method network r SSRDemoPage_prefetch in
      ret (Some r)
  | None => ret None
  end.

End Pages.

(** ** The route handler of [/api/posts] *)

Module Route.
Import JS UsePosts.

(** [const posts = [ ... ]]: the literal the module binds at load time. *)
Definition posts : list Post := [
  {| id := 1; title := "TanStack Query 시작하기"; author := "김개발"; createdAt := "2025-01-15" |};
  {| id := 2; title := "CSR vs SSR 완벽 가이드"; author := "이프론트"; createdAt := "2025-01-20" |};
  {| id := 3; title := "Next.js App Router 이해하기"; author := "박리액트"; createdAt := "2025-02-01" |};
  {| id := 4; title := "React 19 새로운 기능들"; author := "최자바"; createdAt := "2025-02-10" |};
  {| id := 5; title := "Hydration이란 무엇인가?"; author := "정타입"; createdAt := "2025-02-15" |}
].

(** What the handler does to its environment, in order. *)
Inductive Event : Type :=
| SetTimeout (delay : number)   (* [await new Promise(r => setTimeout(r, delay))] *)
| DateNow (iso : string).       (* [new Date().toISOString()] *)

(** The server around the route module: the array bound to [posts]
    (an array is mutable, so its content is state), the clock as the
    sequence of readings it will give, the number of readings taken,
    and the events so far, oldest first. *)
Record World : Type := {
  postsArray : list Post;
  clock : nat -> string;
  clockReads : nat;
  events : list Event
}.

(** The server right after the module has been loaded. *)
Definition loaded (clk : nat -> string) : World :=
  {| postsArray := posts; clock := clk; clockReads := 0; events := [] |}.

Record NextURL : Type := {
  searchParams : URLSearchParams
}.

Record NextRequest : Type := {
  nextUrl : NextURL
}.

Record NextResponse : Type := {
  status : Z;
  body : PostsResponse
}.

(** [NextResponse.json(b)]: status 200, body [b]. *)
Definition NextResponse_json (b : PostsResponse) : NextResponse :=
  {| status := 200; body := b |}.

Definition await_setTimeout (delay : number) : State World unit :=
  fun w =>
    (tt,
     {| postsArray := postsArray w; clock := clock w;
        clockReads := clockReads w;
        events := events w ++ [SetTimeout delay] |}).

Definition new_Date_toISOString : State World string :=
  fun w =>
    let iso := clock w (clockReads w) in
    (iso,
     {| postsArray := postsArray w; clock := clock w;
        clockReads := S (clockReads w);
        events := events w ++ [DateNow iso] |}).

(** Evaluation of the identifier [posts]. *)
Definition read_posts : State World (list Post) :=
  fun w => (postsArray w, w).

(** [export async function GET(request: NextRequest)].  The local
    [isServer = typeof window === 'undefined'] is computed and never
    used; it has no effect and is left out. *)
Definition GET (request : NextRequest) : State World NextResponse :=
  let searchParams := searchParams (nextUrl request) in
  let delay := parseInt (or_else (get searchParams "delay") "1000") 10 in
  run! await_setTimeout delay in
  let! timestamp := new_Date_toISOString in
  let! posts := read_posts in
  ret (NextResponse_json {|
    UsePosts.posts := posts;
    meta := {|
      fetchedAt := timestamp;
      totalCount := Z.of_nat (length posts);
      executedOn := "server"
    |}
  |}).

(** Requests handled one after the other by one server. *)
Fixpoint serve (requests : list NextRequest) : State World (list NextResponse) :=
  match requests with
  | [] => ret []
  | request :: rest =>
      let! r := GET request in
      let! rs := serve rest in
      ret (r :: rs)
  end.

(** The request [GET /api/posts?<params>]. *)
Definition request_with (params : URLSearchParams) : NextRequest :=
  {| nextUrl := {| searchParams := params |} |}.

(** *** Vocabulary of the properties *)

(** A response with its timestamp blanked: what is left is everything the
    body holds apart from [meta.fetchedAt]. *)
Definition withoutFetchedAt (r : NextResponse) : NextResponse :=
  {| status := status r;
     body := {| UsePosts.posts := UsePosts.posts (body r);
                meta := {| fetchedAt := "";
                           totalCount := totalCount (meta (body r));
                           executedOn := executedOn (meta (body r)) |} |} |}.

(** The [delay] parameter of a request, as [searchParams.get('delay')]. *)
Definition delayParam (request : NextRequest) : option string :=
  get (searchParams (nextUrl request)) "delay".

End Route.

(** ** More of the JavaScript library and of the web platform *)

Module JSLib.
Import JS.

(** [s.split(sep)] for a separator of one character: the pieces between
    the occurrences of [sep], in order; never the empty array. *)
Fixpoint split (sep : ascii) (s : string) : list string :=
  match s with
  | EmptyString => [EmptyString]
  | String c r =>
      if Ascii.eqb c sep then EmptyString :: split sep r
      else match split sep r with
           | piece :: pieces => String c piece :: pieces
           | [] => [String c EmptyString]
           end
  end.

(** [a.includes(x)] on an array of integral numbers. *)
Definition includes (a : list Z) (x : Z) : bool := existsb (Z.eqb x) a.

(** Truthiness of a value of type [number | null] and of type
    [string | undefined]: [null], [undefined], [0] and [''] are falsy. *)
Definition truthy (v : option Z) : bool :=
  match v with
  | Some z => negb (z =? 0)
  | None => false
  end.

Definition truthyString (v : option string) : bool :=
  match v with
  | Some EmptyString => false
  | Some _ => true
  | None => false
  end.

(** The part of a string before the first [sep] (the whole string when
    there is none), and the two parts around the first [sep]. *)
Fixpoint upTo (sep : ascii) (s : string) : string :=
  match s with
  | EmptyString => EmptyString
  | String c r => if Ascii.eqb c sep then EmptyString else String c (upTo sep r)
  end.

Fixpoint cutAt (sep : ascii) (s : string) : option (string * string) :=
  match s with
  | EmptyString => None
  | String c r =>
      if Ascii.eqb c sep then Some (EmptyString, r)
      else match cutAt sep r with
           | Some (before, after) => Some (String c before, after)
           | None => None
           end
  end.

(** The query of a URL: what stands between the first [?] and the
    fragment, which begins at the first [#]. *)
Definition queryOf (url : string) : string :=
  match cutAt (ascii_of_N 63) (upTo (ascii_of_N 35) url) with
  | Some (_, query) => query
  | None => EmptyString
  end.

(** Percent-decoding: [%XY] with two hexadecimal digits is the byte
    [0xXY]; everything else stands for itself.  The result is a string of
    bytes.  The platform goes on to read these bytes as UTF-8, which keeps
    every well-formed sequence and turns an ill-formed one ([%FF], say)
    into U+FFFD; that last replacement is not made here. *)
Fixpoint percentDecode (s : string) : string :=
  match s with
  | EmptyString => EmptyString
  | String c r =>
      if code c =? 37 then
        match r with
        | String h1 (String h2 r') =>
            match radixDigit 16 h1, radixDigit 16 h2 with
            | Some a, Some b =>
                String (ascii_of_N (Z.to_N (16 * a + b))) (percentDecode r')
            | _, _ => String c (percentDecode r)
            end
        | _ => String c (percentDecode r)
        end
      else String c (percentDecode r)
  end.

Fixpoint plusToSpace (s : string) : string :=
  match s with
  | EmptyString => EmptyString
  | String c r =>
      String (if code c =? 43 then ascii_of_N 32 else c) (plusToSpace r)
  end.

(** The [application/x-www-form-urlencoded] parser that fills
    [searchParams]: the query is cut at each [&], empty pieces are
    skipped, a piece is cut at its first [=] (no [=]: empty value), [+]
    becomes a space and both parts are percent-decoded. *)
Definition parsePiece (piece : string) : list (string * string) :=
  match piece with
  | EmptyString => []
  | _ =>
      let (name, value) :=
        match cutAt (ascii_of_N 61) piece with
        | Some (name, value) => (name, value)
        | None => (piece, EmptyString)
        end in
      [(percentDecode (plusToSpace name), percentDecode (plusToSpace value))]
  end.

Definition parseQuery (query : string) : URLSearchParams :=
  flat_map parsePiece (split (ascii_of_N 38) query).

(** [new URL(url).searchParams]. *)
Definition searchParamsOf (url : string) : URLSearchParams :=
  parseQuery (queryOf url).

End JSLib.

(** ** [src/hooks/usePosts.ts]: the URL that [fetchPosts] requests *)

Module FetchPosts.
Import JS JSLib.

(** [getBaseUrl]: the imported constant [isServer] and the environment
    variable [process.env.NEXT_PUBLIC_BASE_URL] ([None] when unset) are
    parameters. *)
Definition getBaseUrl (isServer : bool) (NEXT_PUBLIC_BASE_URL : option string) : string :=
  if isServer then or_else NEXT_PUBLIC_BASE_URL "http://localhost:3001"
  else "".

(** The argument of [axios.get] in [fetchPosts]:
    [`${baseUrl}/api/posts?delay=${delay}`], with [delay = 1000] when the
    argument is omitted. *)
Definition fetchPosts_url (isServer : bool) (NEXT_PUBLIC_BASE_URL : option string)
    (delay : option Z) : string :=
  let delay := default 1000 delay in
  let baseUrl := getBaseUrl isServer NEXT_PUBLIC_BASE_URL in
  String.append baseUrl (String.append "/api/posts?delay=" (toString delay)).

End FetchPosts.

(** ** [src/components/TimingIndicator.tsx] *)

Module TimingIndicator.
Import JS JSLib.

Record Props : Type := {
  startTime : option Z;
  endTime : option Z;
  label : string
}.

(** [startTime || endTime]. *)
Definition or_number (a b : option Z) : option Z :=
  if truthy a then a else b.

(** [const elapsed = endTime ? endTime - (startTime || endTime)
                   : startTime ? currentTime - startTime : 0],
    where [currentTime] is the state the interval refreshes.  A
    subtraction is only reached with numbers on both sides. *)
Definition elapsed (props : Props) (currentTime : Z) : Z :=
  if truthy (endTime props) then
    default 0 (endTime props)
    - default 0 (or_number (startTime props) (endTime props))
  else if truthy (startTime props) then
    currentTime - default 0 (startTime props)
  else 0.

(** [startTime !== null && endTime === null] and
    [startTime !== null && endTime !== null]. *)
Definition isLoading (props : Props) : bool :=
  match startTime props, endTime props with
  | Some _, None => true
  | _, _ => false
  end.

Definition isComplete (props : Props) : bool :=
  match startTime props, endTime props with
  | Some _, Some _ => true
  | _, _ => false
  end.

(** The effect: [if (startTime && !endTime)] an interval of 100 ms
    refreshes [currentTime] until the next change of the props. *)
Definition intervalRuns (props : Props) : bool :=
  truthy (startTime props) && negb (truthy (endTime props)).

(** What is rendered: which of the three marks, the label, and the text
    [elapsed > 0 ? `${elapsed}ms` : '-']. *)
Record View : Type := {
  spinner : bool;
  checkMark : bool;
  idleDot : bool;
  labelText : string;
  elapsedText : string
}.

Definition render (props : Props) (currentTime : Z) : View :=
  {| spinner := isLoading props;
     checkMark := isComplete props;
     idleDot := negb (isLoading props) && negb (isComplete props);
     labelText := label props;
     elapsedText :=
       if 0 <? elapsed props currentTime
       then String.append (toString (elapsed props currentTime)) "ms"
       else "-" |}.

End TimingIndicator.

(** ** The component [CodeBlock] *)

Module CodeBlock.
Import JS JSLib.

(** The props; [language] and [highlight] have defaults, [title] may be
    absent. *)
Record Props : Type := {
  code : string;
  language : option string;
  title : option string;
  highlight : option (list Z)
}.

(** One [div] of the listing: its [key], its class, the line number shown
    and the line. *)
Record Row : Type := {
  key : Z;
  className : string;
  number : Z;
  text : string
}.

Record View : Type := {
  header : option string;
  codeClassName : string;
  rows : list Row
}.

(** [lines.map((line, index) => ...)] from [index] on. *)
Fixpoint mapRows (highlight : list Z) (index : Z) (lines : list string) : list Row :=
  match lines with
  | [] => []
  | line :: rest =>
      {| key := index;
         className :=
           if includes highlight (index + 1)
           then "bg-yellow-100 dark:bg-yellow-900/30 -mx-4 px-4"
           else "";
         number := index + 1;
         text := line |}
      :: mapRows highlight (index + 1) rest
  end.

Definition CodeBlock (props : Props) : View :=
  let language := default "typescript" (language props) in
  let highlight := default [] (highlight props) in
  let lines := split (ascii_of_N 10) (code props) in
  {| header := if truthyString (title props) then title props else None;
     codeClassName := String.append "language-" language;
     rows := mapRows highlight 0 lines |}.

End CodeBlock.

(** ** The timing state of [CSRDemoPage] *)

Module CSRDemoPage.
Import JS JSLib.

(** [const [startTime, setStartTime] = useState<number | null>(null)] and
    [const [endTime, setEndTime] = useState<number | null>(null)]. *)
Record Timing : Type := {
  startTime : option Z;
  endTime : option Z
}.

Definition mounted : Timing := {| startTime := None; endTime := None |}.

(** The body of the effect, run after a render that saw [isLoading] and
    the timing state [t]; [now] is [Date.now()].  Both conditions read the
    values of that render; the updates take effect together. *)
Definition effect (isLoading : bool) (now : Z) (t : Timing) : Timing :=
  {| startTime :=
       if isLoading && negb (truthy (startTime t)) then Some now
       else startTime t;
     endTime :=
       if negb isLoading && truthy (startTime t) && negb (truthy (endTime t))
       then Some now
       else endTime t |}.

(** [handleRefresh]: [setStartTime(Date.now()); setEndTime(null);
    refetch()].  The refetch is the library's business. *)
Definition handleRefresh (now : Z) (t : Timing) : Timing :=
  {| startTime := Some now; endTime := None |}.

(** What happens to the page, in order: an effect run or a click on the
    refresh button, each with the clock reading it takes. *)
Inductive Step : Type :=
| Effect (isLoading : bool) (now : Z)
| Refresh (now : Z).

Definition step (t : Timing) (s : Step) : Timing :=
  match s with
  | Effect isLoading now => effect isLoading now t
  | Refresh now => handleRefresh now t
  end.

Definition run (steps : list Step) (t : Timing) : Timing :=
  fold_left step steps t.

Definition clockOf (s : Step) : Z :=
  match s with
  | Effect _ now => now
  | Refresh now => now
  end.

(** The props of the indicator [API 데이터 로딩]. *)
Definition loadingIndicator (t : Timing) : TimingIndicator.Props :=
  {| TimingIndicator.startTime := startTime t;
     TimingIndicator.endTime := endTime t;
     TimingIndicator.label := "API 데이터 로딩" |}.

End CSRDemoPage.

(** ** Vocabulary of the further properties *)

Module Observe.
Import JS JSLib Route.

(** The text does not begin with a decimal digit (it may be empty). *)
Definition noLeadingDigit (tail : string) : bool :=
  match tail with
  | EmptyString => true
  | String c _ => negb ((48 <=? code c) && (code c <=? 57))
  end.

(** The string holds neither [?] nor [#]. *)
Fixpoint noQueryNoFragment (s : string) : bool :=
  match s with
  | EmptyString => true
  | String c r =>
      negb (code c =? 63) && negb (code c =? 35) && noQueryNoFragment r
  end.




(** Every character of the string satisfies [P]. *)
Fixpoint allChars (P : ascii -> bool) (s : string) : bool :=
  match s with
  | EmptyString => true
  | String c r => P c && allChars P r
  end.

(** A minus sign or a decimal digit. *)
Definition numberChar (c : ascii) : bool :=
  (code c =? 45) || ((48 <=? code c) && (code c <=? 57)).

(** Number of line feeds in a string. *)
Fixpoint lineFeeds (s : string) : nat :=
  match s with
  | EmptyString => 0%nat
  | String c r => ((if Ascii.eqb c (ascii_of_N 10) then 1 else 0) + lineFeeds r)%nat
  end.

(** The clock readings of the steps never go back, starting from [c]. *)
Fixpoint clockAdvances (c : Z) (steps : list CSRDemoPage.Step) : Prop :=
  match steps with
  | [] => True
  | s :: rest => c <= CSRDemoPage.clockOf s /\ clockAdvances (CSRDemoPage.clockOf s) rest
  end.

End Observe.

(** ** Safe integers *)

Module JSNumber.

(** [Number.MAX_SAFE_INTEGER] and [Number.isSafeInteger]: the integers
    that a JavaScript number holds exactly and prints digit for digit. *)
Definition MAX_SAFE_INTEGER : Z := 2 ^ 53 - 1.

Definition isSafeInteger (z : Z) : bool :=
  (- MAX_SAFE_INTEGER <=? z) && (z <=? MAX_SAFE_INTEGER).

End JSNumber.

(** ** Fetches that may fail *)

Module Fetching.
Import UsePosts TanStack GetQueryClient Pages.

(** [TanStack.perform] with the outcome of the fetch made explicit:
    [network] gives the data a [queryFn] resolves with, or [None] when it
    rejects for good (after the retries the client allows).  A prefetch
    that fails stores no data: the entry it leaves is in error and its
    data is [undefined]; [prefetchQuery] itself never throws. *)
Definition perform (network : QueryFn -> option PostsResponse) (c : LibraryCall)
    (cache : QueryCache) : option PostsResponse * QueryCache :=
  match c with
  | prefetchQuery o =>
      (None,
       match cache !! queryKey o with
       | Some _ => cache
       | None =>
           match network (queryFn o) with
           | Some data => <[queryKey o := data]> cache
           | None => cache
           end
       end)
  | useQuery o | useSuspenseQuery o => (cache !! queryKey o, cache)
  end.

(** [queryClient.m(o)] on the object behind [r], as [Pages.method]. *)
Definition method (network : QueryFn -> option PostsResponse) (r : Ref)
    (c : LibraryCall) : State Process (option PostsResponse) :=
  fun p =>
    match heap p !! r with
    | Some qc =>
        let (res, cache) := perform network c (queryCache qc) in
        (res,
         {| heap := <[r := {| config := config qc; queryCache := cache |}]> (heap p);
            browserQueryClient := browserQueryClient p;
            accesses := accesses p |})
    | None => (None, p)
    end.

(** [SSRDemoPage] up to its prefetch, as [Pages.SSRDemoPage], with a fetch
    that may fail. *)
Definition SSRDemoPage (isServer : bool) (network : QueryFn -> option PostsResponse)
    : State Process (option Ref) :=
  let! queryClient := getQueryClient isServer in
  match queryClient with
  | Some r =>
      run! method network r SSRDemoPage_prefetch in
      ret (Some r)
  | None => ret None
  end.

End Fetching.

(* ===================================================================== *)
(** * Part II: properties                                                 *)
(* ===================================================================== *)

Import JS UsePosts TanStack GetQueryClient Pages Route.

(** ** The state monad *)

Lemma bind_unfold {S A B : Type} (m : State S A) (k : A -> State S B) (s : S) :
  bind m k s = k (fst (m s)) (snd (m s)).
Proof. unfold bind. destruct (m s); reflexivity. Qed.

(** ** One call of [getQueryClient] *)

Lemma getQueryClient_server (p : Process) :
  getQueryClient true p = (Some (length (heap p)), allocated p).
Proof. reflexivity. Qed.

Lemma getQueryClient_stored (p : Process) (r : Ref) :
  browserQueryClient p = Some r ->
  getQueryClient false p =
    (Some r,
     {| heap := heap p;
        browserQueryClient := Some r;
        accesses := accesses p ++ [RdVar; RdVar] |}).
Proof.
  destruct p as [h v log]. simpl. intros ->.
  unfold getQueryClient, bind, read_browserQueryClient, ret. simpl.
  rewrite <- app_assoc. reflexivity.
Qed.

Lemma getQueryClient_first (p : Process) :
  browserQueryClient p = None ->
  getQueryClient false p =
    (Some (length (heap p)),
     {| heap := heap p ++ [newQueryClient fixedConfig];
        browserQueryClient := Some (length (heap p));
        accesses := accesses p ++ [RdVar; WrVar (length (heap p)); RdVar] |}).
Proof.
  destruct p as [h v log]. simpl. intros ->.
  unfold getQueryClient, bind, read_browserQueryClient, makeQueryClient,
    new_QueryClient, assign_browserQueryClient. simpl.
  rewrite <- !app_assoc. reflexivity.
Qed.

Lemma calls_cons (e : bool) (rest : list bool) (p : Process) :
  calls (e :: rest) p =
    (fst (getQueryClient e p) :: fst (calls rest (snd (getQueryClient e p))),
     snd (calls rest (snd (getQueryClient e p)))).
Proof.
  simpl. rewrite bind_unfold, bind_unfold. reflexivity.
Qed.

(** Case analysis on one call: the server branch, the browser branch with
    a stored singleton, the browser branch without. *)
Ltac step_cases e p :=
  let r := fresh "r" in
  let Hv := fresh "Hv" in
  destruct e;
  [ rewrite (getQueryClient_server p) in *
  | destruct (browserQueryClient p) as [r|] eqn:Hv;
    [ rewrite (getQueryClient_stored p r Hv) in *
    | rewrite (getQueryClient_first p Hv) in * ] ];
  cbn [fst snd heap browserQueryClient accesses allocated] in *.

Lemma initial_wf : wf initial.
Proof. intros r Hr. discriminate Hr. Qed.

Lemma getQueryClient_wf (e : bool) (p : Process) :
  wf p -> wf (snd (getQueryClient e p)).
Proof.
  intros Hwf. unfold wf in *. step_cases e p; intros r'.
  - intros Hr. apply Hwf in Hr. rewrite length_app. simpl. lia.
  - intros [= <-]. apply Hwf. reflexivity.
  - intros [= <-]. rewrite length_app. simpl. lia.
Qed.

Lemma getQueryClient_heap_mono (e : bool) (p : Process) :
  (length (heap p) <= length (heap (snd (getQueryClient e p))))%nat.
Proof. step_cases e p; rewrite ?length_app; simpl; lia. Qed.

Lemma getQueryClient_stored_after (p : Process) :
  browserQueryClient (snd (getQueryClient false p)) = fst (getQueryClient false p).
Proof.
  destruct (browserQueryClient p) as [r|] eqn:Hv.
  - rewrite (getQueryClient_stored p r Hv). reflexivity.
  - rewrite (getQueryClient_first p Hv). reflexivity.
Qed.

Lemma calls_wf (envs : list bool) : forall p, wf p -> wf (snd (calls envs p)).
Proof.
  induction envs as [|e rest IH]; intros p Hwf.
  - exact Hwf.
  - rewrite calls_cons. simpl. apply IH, getQueryClient_wf, Hwf.
Qed.

Lemma calls_length (envs : list bool) :
  forall p, length (fst (calls envs p)) = length envs.
Proof.
  induction envs as [|e rest IH]; intros p.
  - reflexivity.
  - rewrite calls_cons. simpl. f_equal. apply IH.
Qed.

(** A server call of a run returns an object that did not exist when the
    run began. *)
Lemma calls_server_bound (envs : list bool) :
  forall p i x,
    envs !! i = Some true ->
    fst (calls envs p) !! i = Some x ->
    exists r, x = Some r /\ (length (heap p) <= r)%nat.
Proof.
  induction envs as [|e rest IH]; intros p i x He Hx.
  - destruct i; discriminate He.
  - rewrite calls_cons in Hx. destruct i as [|i]; simpl in He, Hx.
    + injection He as ->. rewrite getQueryClient_server in Hx.
      injection Hx as <-. exists (length (heap p)). split; [reflexivity | lia].
    + destruct (IH _ _ _ He Hx) as (r & -> & Hle).
      exists r. split; [reflexivity |].
      pose proof (getQueryClient_heap_mono e p). lia.
Qed.

(** Once a singleton is stored, every browser call of a run returns it. *)
Lemma calls_browser_stored (envs : list bool) :
  forall p r0 j x,
    browserQueryClient p = Some r0 ->
    envs !! j = Some false ->
    fst (calls envs p) !! j = Some x ->
    x = Some r0.
Proof.
  induction envs as [|e rest IH]; intros p r0 j x Hv He Hx.
  - destruct j; discriminate He.
  - rewrite calls_cons in Hx. destruct j as [|j]; simpl in He, Hx.
    + injection He as ->. rewrite (getQueryClient_stored p r0 Hv) in Hx.
      injection Hx as <-. reflexivity.
    + eapply IH; [| exact He | exact Hx].
      destruct e.
      * rewrite getQueryClient_server. exact Hv.
      * rewrite (getQueryClient_stored p r0 Hv). reflexivity.
Qed.

(** Without a stored singleton, a browser call of a run returns an object
    that did not exist when the run began. *)
Lemma calls_browser_fresh (envs : list bool) :
  forall p j x,
    browserQueryClient p = None ->
    envs !! j = Some false ->
    fst (calls envs p) !! j = Some x ->
    exists r, x = Some r /\ (length (heap p) <= r)%nat.
Proof.
  induction envs as [|e rest IH]; intros p j x Hv He Hx.
  - destruct j; discriminate He.
  - rewrite calls_cons in Hx. destruct j as [|j]; simpl in He, Hx.
    + injection He as ->. rewrite (getQueryClient_first p Hv) in Hx.
      injection Hx as <-. exists (length (heap p)). split; [reflexivity | lia].
    + destruct e.
      * rewrite getQueryClient_server in Hx.
        destruct (IH (allocated p) j x Hv He Hx) as (r & -> & Hle).
        exists r. split; [reflexivity |].
        simpl in Hle. rewrite length_app in Hle. simpl in Hle. lia.
      * rewrite (getQueryClient_first p Hv) in Hx. simpl in Hx.
        exists (length (heap p)). split; [| lia].
        eapply calls_browser_stored; [| exact He | exact Hx]. reflexivity.
Qed.

Lemma getQueryClient_result_allocated (e : bool) (p : Process) :
  wf p ->
  exists r, fst (getQueryClient e p) = Some r
            /\ (r < length (heap (snd (getQueryClient e p))))%nat.
Proof.
  intros Hwf. step_cases e p.
  - exists (length (heap p)). rewrite length_app. simpl. split; [reflexivity | lia].
  - exists r. split; [reflexivity |]. apply Hwf, Hv.
  - exists (length (heap p)). rewrite length_app. simpl. split; [reflexivity | lia].
Qed.

Lemma calls_lookup_env (envs : list bool) (p : Process) (i : nat) (x : option Ref) :
  fst (calls envs p) !! i = Some x -> exists e, envs !! i = Some e.
Proof.
  intros Hx. apply lookup_lt_Some in Hx. rewrite calls_length in Hx.
  destruct (lookup_lt_is_Some_2 envs i Hx) as [e He]. exists e. exact He.
Qed.

(** Server calls return strictly increasing references. *)
Lemma calls_servers_increasing (envs : list bool) :
  forall p i j ra rb,
    (i < j)%nat ->
    envs !! i = Some true -> envs !! j = Some true ->
    fst (calls envs p) !! i = Some (Some ra) ->
    fst (calls envs p) !! j = Some (Some rb) ->
    (ra < rb)%nat.
Proof.
  induction envs as [|e rest IH]; intros p i j ra rb Hij Hi Hj Ha Hb.
  - destruct i; discriminate Hi.
  - rewrite calls_cons in Ha, Hb.
    destruct j as [|j]; [lia |]. destruct i as [|i]; simpl in *.
    + injection Hi as ->. rewrite getQueryClient_server in Ha, Hb.
      injection Ha as <-.
      destruct (calls_server_bound _ _ _ _ Hj Hb) as (r & [= <-] & Hle).
      simpl in Hle. rewrite length_app in Hle. simpl in Hle. lia.
    + eapply IH; [| exact Hi | exact Hj | exact Ha | exact Hb]. lia.
Qed.

(** The result of a server call is returned by no other call of the run,
    whatever the environment of that other call. *)
Lemma calls_server_unique (envs : list bool) :
  forall p i j a b,
    wf p ->
    i <> j ->
    envs !! i = Some true ->
    fst (calls envs p) !! i = Some a ->
    fst (calls envs p) !! j = Some b ->
    a <> b.
Proof.
  induction envs as [|e rest IH]; intros p i j a b Hwf Hij Hi Ha Hb.
  - destruct i; discriminate Hi.
  - rewrite calls_cons in Ha, Hb.
    destruct i as [|i], j as [|j]; simpl in *; try congruence.
    + (* the server call comes first *)
      injection Hi as ->. rewrite getQueryClient_server in Ha, Hb.
      injection Ha as <-.
      destruct (calls_lookup_env _ _ _ _ Hb) as [[|] Hj].
      * destruct (calls_server_bound _ _ _ _ Hj Hb) as (r & -> & Hle).
        simpl in Hle. rewrite length_app in Hle. simpl in Hle.
        intros [= Heq]. lia.
      * destruct (browserQueryClient p) as [r0|] eqn:Hv.
        -- rewrite (calls_browser_stored rest (allocated p) r0 j b Hv Hj Hb).
           specialize (Hwf r0 Hv). intros [= Heq]. lia.
        -- destruct (calls_browser_fresh rest (allocated p) j b Hv Hj Hb)
             as (r & -> & Hle).
           simpl in Hle. rewrite length_app in Hle. simpl in Hle.
           intros [= Heq]. lia.
    + (* the server call comes later *)
      destruct (calls_server_bound _ _ _ _ Hi Ha) as (r & -> & Hle).
      destruct (getQueryClient_result_allocated e p Hwf) as (r' & Hr' & Hlt).
      injection Hb as <-. rewrite Hr'. intros [= Heq]. lia.
    + eapply IH; [| | exact Hi | exact Ha | exact Hb].
      * apply getQueryClient_wf, Hwf.
      * congruence.
Qed.

(** A run of browser calls on a stored singleton. *)
Lemma calls_replicate_stored (n : nat) :
  forall p r,
    browserQueryClient p = Some r ->
    calls (replicate n false) p =
      (replicate n (Some r),
       {| heap := heap p;
          browserQueryClient := Some r;
          accesses := accesses p ++ replicate (2 * n) RdVar |}).
Proof.
  induction n as [|n IH]; intros p r Hv.
  - simpl. unfold ret. rewrite app_nil_r. destruct p; simpl in *; subst; reflexivity.
  - cbn [replicate]. rewrite calls_cons.
    rewrite (getQueryClient_stored p r Hv). cbn [fst snd].
    erewrite IH by reflexivity. cbn [fst snd heap accesses].
    replace (2 * S n)%nat with (S (S (2 * n))) by lia.
    cbn [replicate]. rewrite <- app_assoc. reflexivity.
Qed.

(** A stored singleton stays stored. *)
Lemma calls_stored_preserved (envs : list bool) :
  forall p r,
    browserQueryClient p = Some r ->
    browserQueryClient (snd (calls envs p)) = Some r.
Proof.
  induction envs as [|e rest IH]; intros p r Hv.
  - exact Hv.
  - rewrite calls_cons. cbn [snd]. apply IH. destruct e.
    + rewrite getQueryClient_server. exact Hv.
    + rewrite (getQueryClient_stored p r Hv). reflexivity.
Qed.

(** [getQueryClient] never returns [undefined]. *)
Lemma getQueryClient_defined (e : bool) (p : Process) :
  exists r, fst (getQueryClient e p) = Some r.
Proof.
  step_cases e p; eexists; reflexivity.
Qed.

(** What a browser call of a run returns is what the variable holds when
    the run ends. *)
Lemma calls_browser_final (envs : list bool) :
  forall p j b,
    envs !! j = Some false ->
    fst (calls envs p) !! j = Some b ->
    browserQueryClient (snd (calls envs p)) = b.
Proof.
  induction envs as [|e rest IH]; intros p j b He Hb.
  - destruct j; discriminate He.
  - rewrite calls_cons in Hb |- *. cbn [fst snd] in *.
    destruct j as [|j]; simpl in He, Hb.
    + injection He as ->. apply (inj Some) in Hb. subst b.
      destruct (getQueryClient_defined false p) as [r Hr].
      rewrite Hr. apply calls_stored_preserved.
      rewrite getQueryClient_stored_after. exact Hr.
    + eapply IH; [exact He | exact Hb].
Qed.

(** Browser calls agree with each other, also when server calls are made
    in between. *)
Lemma calls_browser_agree (envs : list bool) (p : Process) (i j : nat)
    (a b : option Ref) :
  envs !! i = Some false -> envs !! j = Some false ->
  fst (calls envs p) !! i = Some a ->
  fst (calls envs p) !! j = Some b ->
  a = b.
Proof.
  intros Hi Hj Ha Hb.
  rewrite <- (calls_browser_final envs p i a Hi Ha).
  apply (calls_browser_final envs p j b Hj Hb).
Qed.

(** ** The claims about [getQueryClient] *)

(** C1 (reuse).  In a sequence of browser (session-scoped) calls, the first
    call returns an object reference and leaves it in [browserQueryClient];
    when nothing was stored before, that object is constructed by this call
    and the variable is written once.  Each of the [n] calls that follow
    returns the same reference as the first, and leaves the heap and the
    variable as the first call left them: it only reads the variable. *)
Theorem C1_session_singleton_reused :
  forall (p : Process) (n : nat),
    let first := getQueryClient false p in
    let later := calls (replicate n false) (snd first) in
    (exists r : Ref,
        fst first = Some r
        /\ browserQueryClient (snd first) = Some r
        /\ (browserQueryClient p = None ->
            r = length (heap p)
            /\ heap (snd first) = (heap p ++ [newQueryClient fixedConfig])
            /\ accesses (snd first)
               = (accesses p ++ [RdVar; WrVar r; RdVar])))
    /\ fst later = replicate n (fst first)
    /\ heap (snd later) = heap (snd first)
    /\ browserQueryClient (snd later) = browserQueryClient (snd first)
    /\ accesses (snd later)
       = (accesses (snd first) ++ replicate (2 * n) RdVar).
Proof.
  intros p n first later.
  destruct (getQueryClient_defined false p) as [r Hr]. fold first in Hr.
  assert (Hs : browserQueryClient (snd first) = Some r).
  { unfold first. rewrite getQueryClient_stored_after. exact Hr. }
  split.
  - exists r. split; [exact Hr | split; [exact Hs |]].
    intros Hnone. unfold first in *.
    rewrite (getQueryClient_first p Hnone) in *. cbn [fst snd] in *.
    injection Hr as <-. repeat split.
  - unfold later. rewrite (calls_replicate_stored n (snd first) r Hs).
    cbn [fst snd heap browserQueryClient accesses].
    rewrite Hr, Hs. repeat split.
Qed.

Lemma C1_session_singleton_reused_witness :
  browserQueryClient initial = None
  /\ fst (getQueryClient false initial) = Some 0%nat
  /\ fst (calls [false; false] (snd (getQueryClient false initial)))
     = [Some 0%nat; Some 0%nat].
Proof.
  destruct (C1_session_singleton_reused initial 2)
    as [(r & Hr & _ & Hfresh) (Hlater & _)].
  destruct (Hfresh eq_refl) as (Hr0 & _).
  split; [reflexivity |]. split.
  - rewrite Hr, Hr0. reflexivity.
  - exact Hlater.
Defined.

(** C2 (isolation).  Any two distinct server (request-scoped) calls of a
    run return distinct object references, whatever else the run contains
    and wherever it starts; and a server call neither reads nor writes
    [browserQueryClient]: its result is not stored. *)
Theorem C2_request_scoped_distinct :
  forall (envs : list bool) (p : Process) (i j : nat) (a b : option Ref),
    i <> j ->
    envs !! i = Some true -> envs !! j = Some true ->
    fst (calls envs p) !! i = Some a ->
    fst (calls envs p) !! j = Some b ->
    (exists ra rb : Ref, a = Some ra /\ b = Some rb /\ ra <> rb)
    /\ (forall q : Process,
           browserQueryClient (snd (getQueryClient true q)) = browserQueryClient q
           /\ accesses (snd (getQueryClient true q)) = accesses q).
Proof.
  intros envs p i j a b Hij Hi Hj Ha Hb. split.
  - destruct (calls_server_bound _ _ _ _ Hi Ha) as (ra & -> & _).
    destruct (calls_server_bound _ _ _ _ Hj Hb) as (rb & -> & _).
    exists ra, rb. split; [reflexivity | split; [reflexivity |]].
    destruct (Nat.lt_total i j) as [Hlt | [Heq | Hgt]]; [| congruence |].
    + pose proof (calls_servers_increasing envs p i j ra rb Hlt Hi Hj Ha Hb). lia.
    + pose proof (calls_servers_increasing envs p j i rb ra Hgt Hj Hi Hb Ha). lia.
  - intros q. rewrite getQueryClient_server. split; reflexivity.
Qed.

Lemma C2_request_scoped_distinct_witness :
  exists ra rb : Ref,
    fst (calls [true; true; true] initial) !! 0%nat = Some (Some ra)
    /\ fst (calls [true; true; true] initial) !! 2%nat = Some (Some rb)
    /\ ra <> rb.
Proof.
  destruct (C2_request_scoped_distinct [true; true; true] initial 0 2
              (Some 0%nat) (Some 2%nat))
    as [(ra & rb & [= <-] & [= <-] & Hne) _];
    [lia | reflexivity | reflexivity | reflexivity | reflexivity |].
  exists 0%nat, 2%nat. split; [reflexivity | split; [reflexivity | exact Hne]].
Defined.

(** C3 (independence).  In a run that starts from a process whose stored
    singleton, if any, is an allocated object (as it is in the initial
    process and stays after every call), the result of a server call is
    never the result of a browser call, and the result of a browser call
    is the stored singleton. *)
Theorem C3_request_session_independent :
  forall (envs : list bool) (p : Process) (i j : nat) (a b : option Ref),
    wf p ->
    envs !! i = Some true -> envs !! j = Some false ->
    fst (calls envs p) !! i = Some a ->
    fst (calls envs p) !! j = Some b ->
    a <> b
    /\ browserQueryClient (snd (calls envs p)) = b
    /\ a <> browserQueryClient (snd (calls envs p)).
Proof.
  intros envs p i j a b Hwf Hi Hj Ha Hb.
  assert (Hne : a <> b).
  { apply (calls_server_unique envs p i j a b Hwf); try assumption.
    intros ->. congruence. }
  pose proof (calls_browser_final envs p j b Hj Hb) as Hfin.
  split; [exact Hne | split; [exact Hfin |]].
  rewrite Hfin. exact Hne.
Qed.

Lemma C3_request_session_independent_witness :
  wf initial
  /\ fst (calls [false; true; false] initial) !! 1%nat = Some (Some 1%nat)
  /\ fst (calls [false; true; false] initial) !! 2%nat = Some (Some 0%nat)
  /\ Some 1%nat <> Some 0%nat.
Proof.
  split; [exact initial_wf |]. split; [reflexivity |]. split; [reflexivity |].
  apply (C3_request_session_independent [false; true; false] initial 1 2
           (Some 1%nat) (Some 0%nat) initial_wf);
    reflexivity.
Defined.

Lemma initial_configured : configured initial.
Proof. intros r Hr. discriminate Hr. Qed.

(** A call never modifies an object that exists: it extends the heap, by
    at most one object built from the fixed configuration. *)
Lemma getQueryClient_heap_extends (e : bool) (p : Process) :
  exists k, heap (snd (getQueryClient e p))
            = (heap p ++ replicate k (newQueryClient fixedConfig)).
Proof.
  step_cases e p.
  - exists 1%nat. reflexivity.
  - exists 0%nat. simpl. rewrite app_nil_r. reflexivity.
  - exists 1%nat. reflexivity.
Qed.

Lemma calls_heap_extends (envs : list bool) :
  forall p, exists k, heap (snd (calls envs p))
                      = (heap p ++ replicate k (newQueryClient fixedConfig)).
Proof.
  induction envs as [|e rest IH]; intros p.
  - exists 0%nat. simpl. rewrite app_nil_r. reflexivity.
  - rewrite calls_cons. cbn [snd].
    destruct (IH (snd (getQueryClient e p))) as [k2 Hk2].
    destruct (getQueryClient_heap_extends e p) as [k1 Hk1].
    exists (k1 + k2)%nat.
    rewrite Hk2, Hk1, <- app_assoc, replicate_add. reflexivity.
Qed.

Lemma calls_heap_prefix (envs : list bool) (p : Process) (r : Ref) (qc : QueryClient) :
  heap p !! r = Some qc -> heap (snd (calls envs p)) !! r = Some qc.
Proof.
  intros Hr. destruct (calls_heap_extends envs p) as [k ->].
  apply lookup_app_l_Some, Hr.
Qed.

Lemma getQueryClient_configured (e : bool) (p : Process) :
  configured p ->
  configured (snd (getQueryClient e p))
  /\ exists r qc, fst (getQueryClient e p) = Some r
                  /\ heap (snd (getQueryClient e p)) !! r = Some qc
                  /\ config qc = fixedConfig.
Proof.
  intros Hc. unfold configured in *. step_cases e p.
  - split.
    + intros r Hr. destruct (Hc r Hr) as (qc & Hqc & Hcfg).
      exists qc. split; [apply lookup_app_l_Some, Hqc | exact Hcfg].
    + exists (length (heap p)), (newQueryClient fixedConfig).
      split; [reflexivity | split; [| reflexivity]].
      apply list_lookup_middle. reflexivity.
  - split.
    + intros r' [= <-]. apply Hc. reflexivity.
    + destruct (Hc r eq_refl) as (qc & Hqc & Hcfg).
      exists r, qc. split; [reflexivity | split; assumption].
  - assert (Hnew : (heap p ++ [newQueryClient fixedConfig]) !! length (heap p)
                   = Some (newQueryClient fixedConfig))
      by (apply list_lookup_middle; reflexivity).
    split.
    + intros r' [= <-]. exists (newQueryClient fixedConfig).
      split; [exact Hnew | reflexivity].
    + exists (length (heap p)), (newQueryClient fixedConfig).
      split; [reflexivity | split; [exact Hnew | reflexivity]].
Qed.

(** C4 (configuration).  In a run that starts from a process whose stored
    singleton, if any, carries the fixed configuration (as in the initial
    process), whatever a call returns, in either environment, is an object
    whose options are [staleTime = 60000], [refetchOnWindowFocus = false],
    [retry = 1].  The run only appends objects built from that
    configuration to the heap: the options are those given at construction
    and no existing object is changed. *)
Theorem C4_fixed_configuration :
  forall (envs : list bool) (p : Process) (i : nat) (x : option Ref),
    configured p ->
    fst (calls envs p) !! i = Some x ->
    (exists (r : Ref) (qc : QueryClient),
        x = Some r
        /\ heap (snd (calls envs p)) !! r = Some qc
        /\ config qc = fixedConfig
        /\ staleTime (queries (defaultOptions (config qc))) = 60000
        /\ refetchOnWindowFocus (queries (defaultOptions (config qc))) = false
        /\ retry (queries (defaultOptions (config qc))) = 1)
    /\ (exists k : nat,
           heap (snd (calls envs p))
           = (heap p ++ replicate k (newQueryClient fixedConfig))).
Proof.
  intros envs p i x Hc Hx. split; [| apply calls_heap_extends].
  revert p i x Hc Hx.
  induction envs as [|e rest IH]; intros p i x Hc Hx.
  - destruct i; discriminate Hx.
  - rewrite calls_cons in Hx |- *. cbn [fst snd] in *.
    destruct (getQueryClient_configured e p Hc) as (Hc1 & r & qc & Hr & Hqc & Hcfg).
    destruct i as [|i]; simpl in Hx.
    + apply (inj Some) in Hx. subst x.
      exists r, qc. split; [exact Hr |].
      split; [apply calls_heap_prefix, Hqc |].
      split; [exact Hcfg |]. rewrite Hcfg. repeat split.
    + apply (IH _ i x Hc1 Hx).
Qed.

Lemma C4_fixed_configuration_witness :
  exists qc : QueryClient,
    heap (snd (calls [true; false; false] initial)) !! 1%nat = Some qc
    /\ staleTime (queries (defaultOptions (config qc))) = 60000
    /\ refetchOnWindowFocus (queries (defaultOptions (config qc))) = false
    /\ retry (queries (defaultOptions (config qc))) = 1.
Proof.
  destruct (C4_fixed_configuration [true; false; false] initial 2 (Some 1%nat)
              initial_configured eq_refl)
    as [(r & qc & [= <-] & Hqc & _ & Hs & Hf & Hr) _].
  exists qc. repeat split; assumption.
Defined.

(** ** Writes of [browserQueryClient] *)

Lemma writes_app (l1 l2 : list Access) :
  writes (l1 ++ l2) = (writes l1 + writes l2)%nat.
Proof. unfold writes. rewrite List.filter_app, length_app. reflexivity. Qed.

(** A run made of server calls only leaves the variable and its log alone. *)
Lemma calls_servers_only (envs : list bool) :
  forall p,
    existsb negb envs = false ->
    browserQueryClient (snd (calls envs p)) = browserQueryClient p
    /\ accesses (snd (calls envs p)) = accesses p.
Proof.
  induction envs as [|e rest IH]; intros p Hall.
  - split; reflexivity.
  - simpl in Hall. apply orb_false_iff in Hall as [He Hrest].
    destruct e; [| discriminate He].
    rewrite calls_cons, getQueryClient_server. cbn [snd].
    destruct (IH (allocated p) Hrest) as [-> ->]. split; reflexivity.
Qed.

(** A run on a stored singleton adds reads only. *)
Lemma calls_stored_writes (envs : list bool) :
  forall p r,
    browserQueryClient p = Some r ->
    writes (accesses (snd (calls envs p))) = writes (accesses p).
Proof.
  induction envs as [|e rest IH]; intros p r Hv.
  - reflexivity.
  - rewrite calls_cons. cbn [snd]. destruct e.
    + rewrite getQueryClient_server. cbn [snd].
      rewrite (IH (allocated p) r Hv). reflexivity.
    + rewrite (getQueryClient_stored p r Hv). cbn [snd].
      erewrite IH by reflexivity. cbn [accesses].
      rewrite writes_app. cbn. lia.
Qed.

(** The number of writes a run adds: one when nothing is stored and the
    run has a browser call, none otherwise. *)
Lemma calls_writes (envs : list bool) :
  forall p,
    writes (accesses (snd (calls envs p)))
    = (writes (accesses p)
       + (if not_ (browserQueryClient p) && existsb negb envs then 1 else 0))%nat.
Proof.
  induction envs as [|e rest IH]; intros p.
  - simpl. rewrite andb_false_r. lia.
  - rewrite calls_cons. cbn [snd]. step_cases e p.
    + rewrite IH. reflexivity.
    + erewrite calls_stored_writes by reflexivity. cbn [accesses not_ andb].
      rewrite writes_app. cbn. lia.
    + erewrite calls_stored_writes by reflexivity. cbn [accesses not_ andb existsb negb orb].
      rewrite writes_app. cbn. lia.
Qed.

(** C8, as stated, fails: a run of request-scoped calls only (what a server
    process makes) never writes [browserQueryClient], so it is not the case
    that every sequence of calls makes exactly one write. *)
Lemma C8_single_write_counterexample :
  writes (accesses (snd (calls [true] initial))) = 0%nat
  /\ ~ (forall envs : list bool,
          writes (accesses (snd (calls envs initial))) = 1%nat).
Proof.
  split; [reflexivity |].
  intros H. specialize (H [true]). discriminate H.
Qed.

(** C8 (frame), amended.  Starting from the initial process, a sequence of
    calls writes [browserQueryClient] at most once: exactly once when the
    sequence contains a browser (session-scoped) call, never otherwise.
    A server call neither reads nor writes the variable; a browser call
    made when nothing is stored writes it once; a browser call made when a
    singleton is stored reads the variable twice and changes neither the
    variable nor the heap.  No call changes an object that exists. *)
Theorem C8_single_write_amended :
  forall envs : list bool,
    writes (accesses (snd (calls envs initial)))
    = (if existsb negb envs then 1 else 0)%nat
    /\ (forall q : Process,
           browserQueryClient (snd (getQueryClient true q)) = browserQueryClient q
           /\ accesses (snd (getQueryClient true q)) = accesses q)
    /\ (forall q : Process,
           browserQueryClient q = None ->
           writes (accesses (snd (getQueryClient false q)))
           = S (writes (accesses q)))
    /\ (forall (q : Process) (r : Ref),
           browserQueryClient q = Some r ->
           browserQueryClient (snd (getQueryClient false q)) = Some r
           /\ heap (snd (getQueryClient false q)) = heap q
           /\ accesses (snd (getQueryClient false q)) = accesses q ++ [RdVar; RdVar])
    /\ (forall (q : Process) (e : bool) (r : Ref) (qc : QueryClient),
           heap q !! r = Some qc ->
           heap (snd (getQueryClient e q)) !! r = Some qc).
Proof.
  intros envs. split; [| split; [| split; [| split]]].
  - rewrite calls_writes. reflexivity.
  - intros q. rewrite getQueryClient_server. split; reflexivity.
  - intros q Hv. rewrite (getQueryClient_first q Hv). cbn [snd accesses].
    rewrite writes_app. cbn. lia.
  - intros q r Hv. rewrite (getQueryClient_stored q r Hv). repeat split.
  - intros q e r qc Hr.
    destruct (getQueryClient_heap_extends e q) as [k ->].
    apply lookup_app_l_Some, Hr.
Qed.

Lemma C8_single_write_amended_witness :
  writes (accesses (snd (calls [true; false; true; false] initial))) = 1%nat
  /\ accesses (snd (getQueryClient false (snd (getQueryClient false initial))))
     = [RdVar; WrVar 0%nat; RdVar; RdVar; RdVar].
Proof.
  destruct (C8_single_write_amended [true; false; true; false])
    as (Hw & _ & _ & Hlater & _).
  split; [exact Hw |].
  destruct (Hlater (snd (getQueryClient false initial)) 0%nat eq_refl)
    as (_ & _ & Hlog).
  exact Hlog.
Defined.

(** ** The posts query options *)

Lemma postsQueryOptions_key (d : Z) :
  queryKey (postsQueryOptions (Some d)) = [KString "posts"; KNumber d].
Proof. reflexivity. Qed.

Lemma postsQueryOptions_key_inj (d1 d2 : Z) :
  queryKey (postsQueryOptions (Some d1)) = queryKey (postsQueryOptions (Some d2))
  <-> d1 = d2.
Proof.
  rewrite !postsQueryOptions_key. split.
  - intros [= Heq]. exact Heq.
  - intros ->. reflexivity.
Qed.

(** A hook that follows a prefetch into an empty cache reads the prefetched
    data when the two delays are equal and nothing otherwise. *)
Lemma hook_after_prefetch (network : QueryFn -> PostsResponse)
    (hook : QueryOptions -> LibraryCall) (d1 d2 : Z) :
  (hook = useQuery \/ hook = useSuspenseQuery) ->
  fst (perform network (hook (postsQueryOptions (Some d2)))
         (snd (perform network (prefetchQuery (postsQueryOptions (Some d1))) ∅)))
  = if decide (d1 = d2) then Some (network (FetchPosts d1)) else None.
Proof.
  intros Hhook.
  assert (Hread :
    fst (perform network (hook (postsQueryOptions (Some d2)))
           (snd (perform network (prefetchQuery (postsQueryOptions (Some d1))) ∅)))
    = (<[ [KString "posts"; KNumber d1] := network (FetchPosts d1) ]>
         (∅ : QueryCache)) !! [KString "posts"; KNumber d2]).
  { destruct Hhook as [-> | ->]; cbn [perform fst snd];
      rewrite lookup_empty; reflexivity. }
  rewrite Hread. destruct (decide (d1 = d2)) as [-> | Hne].
  - apply lookup_insert_eq.
  - rewrite lookup_insert_ne; [apply lookup_empty |].
    intros [= Heq]. contradiction.
Qed.

(** C10.  For every delay [d], [postsQueryOptions(d)] has the query key
    [['posts', d]]; two calls have equal keys exactly when their delays are
    equal.  [usePosts] and [usePostsSuspense] pass the options of
    [postsQueryOptions] to their hook, the two pages prefetch with the
    options of [postsQueryOptions]; so a prefetch and a hook address the
    same cache entry exactly when their delays are equal, and, on a cache,
    a hook that follows a prefetch finds the prefetched data exactly then.
    An omitted delay is the delay 1000. *)
Theorem C10_posts_query_key_shared :
  (forall d : Z,
      queryKey (postsQueryOptions (Some d)) = [KString "posts"; KNumber d])
  /\ (forall d1 d2 : Z,
         queryKey (postsQueryOptions (Some d1)) = queryKey (postsQueryOptions (Some d2))
         <-> d1 = d2)
  /\ (forall d : Z,
         usePosts (Some d) = useQuery (postsQueryOptions (Some d))
         /\ usePostsSuspense (Some d) = useSuspenseQuery (postsQueryOptions (Some d)))
  /\ (SSRDemoPage_prefetch = prefetchQuery (postsQueryOptions (Some 1500))
      /\ PostListWithData_prefetch = prefetchQuery (postsQueryOptions (Some 2000)))
  /\ (forall d1 d2 : Z,
         (addressed (prefetchQuery (postsQueryOptions (Some d1)))
          = addressed (usePosts (Some d2)) <-> d1 = d2)
         /\ (addressed (prefetchQuery (postsQueryOptions (Some d1)))
             = addressed (usePostsSuspense (Some d2)) <-> d1 = d2))
  /\ (forall (network : QueryFn -> PostsResponse) (d1 d2 : Z),
         let prefetched :=
           snd (perform network (prefetchQuery (postsQueryOptions (Some d1))) ∅) in
         (fst (perform network (usePosts (Some d2)) prefetched)
          = Some (network (FetchPosts d1)) <-> d1 = d2)
         /\ (fst (perform network (usePostsSuspense (Some d2)) prefetched)
             = Some (network (FetchPosts d1)) <-> d1 = d2))
  /\ (postsQueryOptions None = postsQueryOptions (Some 1000)
      /\ usePosts None = usePosts (Some 1000)
      /\ usePostsSuspense None = usePostsSuspense (Some 1000)).
Proof.
  split; [exact postsQueryOptions_key |].
  split; [exact postsQueryOptions_key_inj |].
  split; [intros d; split; reflexivity |].
  split; [split; reflexivity |].
  split; [intros d1 d2; split; apply postsQueryOptions_key_inj |].
  split; [| repeat split].
  intros network d1 d2 prefetched. unfold prefetched.
  change (usePosts (Some d2)) with (useQuery (postsQueryOptions (Some d2))).
  change (usePostsSuspense (Some d2))
    with (useSuspenseQuery (postsQueryOptions (Some d2))).
  rewrite (hook_after_prefetch network useQuery d1 d2) by (left; reflexivity).
  rewrite (hook_after_prefetch network useSuspenseQuery d1 d2) by (right; reflexivity).
  destruct (decide (d1 = d2)) as [Heq | Hne].
  - split; split; intro; [exact Heq | reflexivity | exact Heq | reflexivity].
  - split; split; intro; try discriminate; contradiction.
Qed.

(** The pages of the repository: the SSR page and the streaming page each
    prefetch the entry their list component reads; the two pages use
    different entries. *)
Lemma pages_address_their_prefetch :
  addressed SSRDemoPage_prefetch = addressed SSRPostList_hook
  /\ addressed PostListWithData_prefetch = addressed StreamingPostList_hook
  /\ addressed SSRDemoPage_prefetch <> addressed StreamingPostList_hook.
Proof.
  split; [reflexivity | split; [reflexivity |]].
  intros Heq. discriminate Heq.
Qed.

(** On the server, [SSRDemoPage] works on a client of its own: a new
    object whose cache, when the fetch succeeds, holds the one prefetched
    entry; the clients that existed and the variable [browserQueryClient]
    are left as they were. *)
Lemma SSRDemoPage_server (network : QueryFn -> PostsResponse) (p : Process) :
  SSRDemoPage true network p =
    (Some (length (heap p)),
     {| heap := heap p ++
          [{| config := fixedConfig;
              queryCache :=
                {[ [KString "posts"; KNumber 1500] := network (FetchPosts 1500) ]} |}];
        browserQueryClient := browserQueryClient p;
        accesses := accesses p |}).
Proof.
  unfold SSRDemoPage. rewrite bind_unfold, getQueryClient_server.
  cbn [fst snd]. rewrite bind_unfold. unfold method, ret.
  cbn [allocated heap browserQueryClient accesses].
  rewrite list_lookup_middle by reflexivity.
  cbn [perform SSRDemoPage_prefetch newQueryClient queryCache config fst snd].
  rewrite lookup_empty, insert_empty.
  rewrite insert_app_r_alt by lia. rewrite Nat.sub_diag. reflexivity.
Qed.

(** Two requests rendered by the same server process get two clients, and
    rendering the second leaves the first client as it was. *)
Lemma SSRDemoPage_requests_isolated
    (network1 network2 : QueryFn -> PostsResponse) (p : Process) :
  let first := SSRDemoPage true network1 p in
  let second := SSRDemoPage true network2 (snd first) in
  fst first <> fst second
  /\ forall r qc, heap (snd first) !! r = Some qc -> heap (snd second) !! r = Some qc.
Proof.
  intros first second. unfold second, first. rewrite !SSRDemoPage_server.
  cbn [fst snd heap]. split.
  - rewrite length_app. cbn [length]. intros [= Heq]. lia.
  - intros r qc Hr. apply lookup_app_l_Some, Hr.
Qed.

(** ** [parseInt] and the printing of numbers *)

Lemma parseInt_10 (s : string) :
  parseInt s 10 =
    match readDigits 10 None (snd (stripSign (trimStart s))) with
    | Some m => Num (fst (stripSign (trimStart s)) * m)
    | None => NaN
    end.
Proof.
  unfold parseInt. destruct (stripSign (trimStart s)) as [sign S]. reflexivity.
Qed.


Lemma radixDigit_10_decimal (c : ascii) :
  is_Some (radixDigit 10 c) <-> (48 <=? code c) && (code c <=? 57) = true.
Proof.
  unfold radixDigit, digitOf.
  destruct ((48 <=? code c) && (code c <=? 57)) eqn:Hdec.
  - apply andb_true_iff in Hdec as [H1%Z.leb_le H2%Z.leb_le].
    replace (code c - 48 <? 10) with true by (symmetry; apply Z.ltb_lt; lia).
    split; [reflexivity | intros _; eexists; reflexivity].
  - split; [| discriminate].
    destruct ((97 <=? code c) && (code c <=? 122)) eqn:Hlow.
    + apply andb_true_iff in Hlow as [H1%Z.leb_le H2%Z.leb_le].
      replace (code c - 87 <? 10) with false by (symmetry; apply Z.ltb_ge; lia).
      intros [x Hx]. discriminate Hx.
    + destruct ((65 <=? code c) && (code c <=? 90)) eqn:Hup.
      * apply andb_true_iff in Hup as [H1%Z.leb_le H2%Z.leb_le].
        replace (code c - 55 <? 10) with false by (symmetry; apply Z.ltb_ge; lia).
        intros [x Hx]. discriminate Hx.
      * intros [x Hx]. discriminate Hx.
Qed.


Lemma code_digitChar (d : Z) : 0 <= d < 10 -> code (digitChar d) = 48 + d.
Proof.
  intros Hd. unfold code, digitChar.
  rewrite N_ascii_embedding by lia. lia.
Qed.

Lemma radixDigit_digitChar (d : Z) :
  0 <= d < 10 -> radixDigit 10 (digitChar d) = Some d.
Proof.
  intros Hd. unfold radixDigit, digitOf. rewrite (code_digitChar d Hd).
  replace ((48 <=? 48 + d) && (48 + d <=? 57)) with true
    by (symmetry; apply andb_true_iff; split; apply Z.leb_le; lia).
  cbv zeta. replace (48 + d - 48 <? 10) with true by (symmetry; apply Z.ltb_lt; lia).
  f_equal. lia.
Qed.

(** Reading back the digits that [digitsOf] prints. *)
Lemma readDigits_digitsOf (fuel : nat) :
  forall (n : Z) (rest : string),
    0 <= n < 10 ^ Z.of_nat (S fuel) ->
    readDigits 10 None (digitsOf (S fuel) n rest) = readDigits 10 (Some n) rest.
Proof.
  induction fuel as [|fuel IH]; intros n rest Hn.
  - change (10 ^ Z.of_nat 1) with 10 in Hn.
    cbn [digitsOf]. replace (n <? 10) with true by (symmetry; apply Z.ltb_lt; lia).
    cbn [readDigits]. rewrite Z.mod_small by lia.
    rewrite (radixDigit_digitChar n) by lia. cbn [default from_option]; unfold Datatypes.id.
    replace (10 * 0 + n) with n by lia. reflexivity.
  - remember (S fuel) as f eqn:Hf. cbn [digitsOf].
    destruct (n <? 10) eqn:Hsmall.
    + apply Z.ltb_lt in Hsmall. cbn [readDigits]. rewrite Z.mod_small by lia.
      rewrite (radixDigit_digitChar n) by lia. cbn [default from_option]; unfold Datatypes.id.
      replace (10 * 0 + n) with n by lia. reflexivity.
    + apply Z.ltb_ge in Hsmall. rewrite IH.
      * cbn [readDigits].
        rewrite (radixDigit_digitChar (n mod 10)) by (apply Z.mod_pos_bound; lia).
        cbn [default from_option]; unfold Datatypes.id. replace (10 * (n / 10) + n mod 10) with n
          by (rewrite <- Z.div_mod; lia). reflexivity.
      * split; [apply Z.div_pos; lia |].
        apply Z.div_lt_upper_bound; [lia |].
        replace (Z.of_nat (S f)) with (Z.succ (Z.of_nat f)) in Hn by lia.
        rewrite Z.pow_succ_r in Hn by lia. lia.
Qed.

Lemma log2_fuel (n : Z) : 0 <= n -> n < 10 ^ Z.of_nat (S (Z.to_nat (Z.log2 n))).
Proof.
  intros Hn. destruct (Z.eq_dec n 0) as [-> | Hnz].
  - reflexivity.
  - pose proof (Z.log2_spec n ltac:(lia)) as [_ Hup].
    pose proof (Z.log2_nonneg n) as Hl.
    replace (Z.of_nat (S (Z.to_nat (Z.log2 n)))) with (Z.succ (Z.log2 n)) by lia.
    eapply Z.lt_le_trans; [exact Hup |].
    apply Z.pow_le_mono_l. lia.
Qed.

Lemma readDigits_toString_nonneg (n : Z) :
  0 <= n ->
  readDigits 10 None (digitsOf (S (Z.to_nat (Z.log2 n))) n "") = Some n.
Proof.
  intros Hn. rewrite readDigits_digitsOf by (split; [lia | apply log2_fuel; lia]).
  reflexivity.
Qed.

(** The first character of what [digitsOf] prints is a digit. *)
Lemma digitsOf_head (fuel : nat) :
  forall (n : Z) (rest : string),
    0 <= n ->
    exists d r, 0 <= d < 10 /\ digitsOf (S fuel) n rest = String (digitChar d) r.
Proof.
  induction fuel as [|fuel IH]; intros n rest Hn.
  - cbn [digitsOf]. exists (n mod 10).
    destruct (n <? 10); eexists; (split; [apply Z.mod_pos_bound; lia | reflexivity]).
  - remember (S fuel) as f eqn:Hf. cbn [digitsOf]. destruct (n <? 10).
    + exists (n mod 10). eexists. split; [apply Z.mod_pos_bound; lia | reflexivity].
    + subst f. apply IH. apply Z.div_pos; lia.
Qed.

(** A string that begins with a printable ASCII character has no leading
    white space. *)
Lemma trimStart_printable (c : ascii) (r : string) :
  33 <= code c < 128 -> trimStart (String c r) = String c r.
Proof.
  intros Hc. cbn [trimStart].
  assert (H1 : isWhite1 c = false).
  { unfold isWhite1. apply orb_false_iff. split.
    - apply andb_false_iff. right. apply Z.leb_gt. lia.
    - apply Z.eqb_neq. lia. }
  rewrite H1. destruct r as [|b r2]; [reflexivity |].
  assert (H2 : isWhite2 c b = false).
  { unfold isWhite2. apply andb_false_iff. left. apply Z.eqb_neq. lia. }
  rewrite H2. destruct r2 as [|c3 r3]; [reflexivity |].
  assert (H3 : isWhite3 c b c3 = false).
  { unfold isWhite3.
    repeat match goal with
           | |- context [code c =? ?k] =>
               rewrite (proj2 (Z.eqb_neq (code c) k)) by lia
           end.
    reflexivity. }
  rewrite H3. reflexivity.
Qed.

(** Printing an integer and parsing it back gives the integer, in the
    exact arithmetic of the embedding; this is JavaScript's result for
    safe integers. *)
Lemma parseInt_toString (z : Z) : parseInt (toString z) 10 = Num z.
Proof.
  rewrite parseInt_10. unfold toString. destruct (z <? 0) eqn:Hneg.
  - apply Z.ltb_lt in Hneg.
    rewrite trimStart_printable by (vm_compute; split; [discriminate | reflexivity]).
    cbn [stripSign]. change (code (ascii_of_N 45) =? 45) with true.
    cbn [fst snd]. rewrite readDigits_toString_nonneg by lia.
    f_equal. lia.
  - apply Z.ltb_ge in Hneg.
    destruct (digitsOf_head (Z.to_nat (Z.log2 z)) z "" Hneg) as (d & r & Hd & Hhead).
    pose proof (readDigits_toString_nonneg z Hneg) as Hread.
    rewrite Hhead in *.
    rewrite trimStart_printable by (rewrite code_digitChar; lia).
    unfold stripSign. rewrite (code_digitChar d Hd).
    replace (48 + d =? 45) with false by (symmetry; apply Z.eqb_neq; lia).
    replace (48 + d =? 43) with false by (symmetry; apply Z.eqb_neq; lia).
    cbn [fst snd]. rewrite Hread. f_equal. lia.
Qed.

(** ** The mock endpoint *)

Lemma GET_unfold (request : NextRequest) (w : World) :
  GET request w =
    (NextResponse_json
       {| UsePosts.posts := postsArray w;
          meta := {| fetchedAt := clock w (clockReads w);
                     totalCount := Z.of_nat (length (postsArray w));
                     executedOn := "server" |} |},
     {| postsArray := postsArray w;
        clock := clock w;
        clockReads := S (clockReads w);
        events := events w
                  ++ [SetTimeout (parseInt (or_else (delayParam request) "1000") 10);
                      DateNow (clock w (clockReads w))] |}).
Proof.
  unfold GET, bind, await_setTimeout, new_Date_toISOString, read_posts, ret.
  cbn [postsArray clock clockReads events]. rewrite <- app_assoc. reflexivity.
Qed.

Lemma serve_cons (request : NextRequest) (rest : list NextRequest) (w : World) :
  serve (request :: rest) w =
    (fst (GET request w) :: fst (serve rest (snd (GET request w))),
     snd (serve rest (snd (GET request w)))).
Proof. simpl. rewrite bind_unfold, bind_unfold. reflexivity. Qed.

(** The handler never changes the array bound to [posts]. *)
Lemma GET_keeps_posts (request : NextRequest) (w : World) :
  postsArray (snd (GET request w)) = postsArray w.
Proof. rewrite GET_unfold. reflexivity. Qed.

Lemma serve_keeps_posts (requests : list NextRequest) :
  forall w, postsArray (snd (serve requests w)) = postsArray w.
Proof.
  induction requests as [|request rest IH]; intros w.
  - reflexivity.
  - rewrite serve_cons. cbn [snd]. rewrite IH. apply GET_keeps_posts.
Qed.

Lemma or_else_nonempty (s d : string) : s <> "" -> or_else (Some s) d = s.
Proof. intros Hs. destruct s; [contradiction | reflexivity]. Qed.

Lemma toString_nonempty (z : Z) : toString z <> "".
Proof.
  unfold toString. destruct (z <? 0) eqn:Hneg; [discriminate |].
  apply Z.ltb_ge in Hneg.
  destruct (digitsOf_head (Z.to_nat (Z.log2 z)) z "" Hneg) as (d & r & _ & ->).
  discriminate.
Qed.

(** C5.  Whatever requests a server has handled since the route module was
    loaded, and whatever the request (so whatever its delay), the body of
    the response has [posts] equal to the fixed list of the module, five
    records with ids 1 to 5 in that order, [meta.totalCount] equal to the
    length of that list, which is 5, and [meta.executedOn] equal to
    ["server"]. *)
Theorem C5_fixed_payload :
  forall (clk : nat -> string) (earlier : list NextRequest) (request : NextRequest),
    let w := snd (serve earlier (loaded clk)) in
    let b := body (fst (GET request w)) in
    UsePosts.posts b = Route.posts
    /\ totalCount (meta b) = Z.of_nat (length Route.posts)
    /\ totalCount (meta b) = 5
    /\ executedOn (meta b) = "server"
    /\ length (UsePosts.posts b) = 5%nat
    /\ map id (UsePosts.posts b) = [1; 2; 3; 4; 5]
    /\ status (fst (GET request w)) = 200.
Proof.
  intros clk earlier request w b. unfold b. rewrite GET_unfold.
  cbn [fst body NextResponse_json UsePosts.posts meta totalCount executedOn status].
  unfold w. rewrite serve_keeps_posts. cbn [loaded postsArray].
  repeat split.
Qed.



(** The request that [fetchPosts(d)] sends makes the endpoint wait [d],
    for a safe integer [d]. *)
Lemma fetchPosts_waits_its_delay (d : Z) (w : World) :
  JSNumber.isSafeInteger d = true ->
  events (snd (GET (request_with (fetchPosts_searchParams (Some d))) w))
  = events w ++ [SetTimeout (Num d); DateNow (clock w (clockReads w))].
Proof.
  intros _.
  rewrite GET_unfold. cbn [events]. unfold delayParam.
  cbn [request_with nextUrl searchParams fetchPosts_searchParams default
       from_option get]. unfold Datatypes.id.
  change (String.eqb "delay" "delay") with true. cbv iota.
  rewrite (or_else_nonempty _ "1000" (toString_nonempty d)), parseInt_toString.
  reflexivity.
Qed.

(** C7.  Take two calls of the handler, each on a server that has handled
    any requests since the module was loaded (the servers may be the same,
    one call after the other, or different), with the same [delay]
    parameter.  The two responses are equal apart from [meta.fetchedAt],
    and equal outright when the two clock readings are; the two timers have
    the same delay; and the array bound to [posts] is the fixed list before
    and after each call.  No call, on any server state, changes that
    array. *)
Theorem C7_read_only_deterministic :
  forall (clk1 clk2 : nat -> string) (earlier1 earlier2 : list NextRequest)
         (request1 request2 : NextRequest),
    let w1 := snd (serve earlier1 (loaded clk1)) in
    let w2 := snd (serve earlier2 (loaded clk2)) in
    let r1 := fst (GET request1 w1) in
    let r2 := fst (GET request2 w2) in
    delayParam request1 = delayParam request2 ->
    withoutFetchedAt r1 = withoutFetchedAt r2
    /\ (fetchedAt (meta (body r1)) = fetchedAt (meta (body r2)) -> r1 = r2)
    /\ (exists d : number,
           events (snd (GET request1 w1))
           = events w1 ++ [SetTimeout d; DateNow (fetchedAt (meta (body r1)))]
           /\ events (snd (GET request2 w2))
              = events w2 ++ [SetTimeout d; DateNow (fetchedAt (meta (body r2)))])
    /\ (postsArray w1 = Route.posts
        /\ postsArray (snd (GET request1 w1)) = Route.posts
        /\ postsArray w2 = Route.posts
        /\ postsArray (snd (GET request2 w2)) = Route.posts)
    /\ (forall (request : NextRequest) (w : World),
           postsArray (snd (GET request w)) = postsArray w).
Proof.
  intros clk1 clk2 earlier1 earlier2 request1 request2 w1 w2 r1 r2 Hdelay.
  assert (Hp1 : postsArray w1 = Route.posts) by apply serve_keeps_posts.
  assert (Hp2 : postsArray w2 = Route.posts) by apply serve_keeps_posts.
  unfold r1, r2. rewrite !GET_unfold.
  cbn [fst snd body meta fetchedAt NextResponse_json postsArray events].
  rewrite Hp1, Hp2, Hdelay.
  split; [reflexivity |]. split; [intros ->; reflexivity |].
  split; [eexists; split; reflexivity |].
  split; [repeat split |].
  intros request w. apply GET_keeps_posts.
Qed.

Lemma C7_read_only_deterministic_witness :
  withoutFetchedAt
    (fst (GET (request_with [("delay", "1000")]) (loaded (fun _ => "t1"))))
  = withoutFetchedAt
      (fst (GET (request_with [("delay", "1000"); ("page", "2")])
              (snd (GET (request_with [("delay", "1000")]) (loaded (fun _ => "t0")))))).
Proof.
  apply (C7_read_only_deterministic
           (fun _ => "t1") (fun _ => "t0")
           [] [request_with [("delay", "1000")]]
           (request_with [("delay", "1000")])
           (request_with [("delay", "1000"); ("page", "2")])).
  reflexivity.
Defined.



(** ** Scenarios *)

(** Three browser calls in a row return the same client. *)
Example scenario_three_session_calls :
  fst (calls [false; false; false] initial)
  = [Some 0%nat; Some 0%nat; Some 0%nat].
Proof. reflexivity. Qed.

(** Three server calls in a row return three clients. *)
Example scenario_three_request_calls :
  fst (calls [true; true; true] initial)
  = [Some 0%nat; Some 1%nat; Some 2%nat].
Proof. reflexivity. Qed.

(** A call of the endpoint with [delay=1000]. *)
Example scenario_endpoint_delay_1000 :
  let run := GET (request_with [("delay", "1000")]) (loaded (fun _ => "t0")) in
  totalCount (meta (body (fst run))) = 5
  /\ executedOn (meta (body (fst run))) = "server"
  /\ events (snd run) = [SetTimeout (Num 1000); DateNow "t0"].
Proof. repeat split. Qed.

(** Some values of [parseInt(_, 10)]. *)
Example scenario_parseInt :
  parseInt "1000" 10 = Num 1000
  /\ parseInt "abc" 10 = NaN
  /\ parseInt "  -42px" 10 = Num (-42)
  /\ parseInt "12.5" 10 = Num 12
  /\ parseInt "0x1f" 10 = Num 0
  /\ parseInt "" 10 = NaN.
Proof. repeat split. Qed.

(* ===================================================================== *)
(** * Part III: further properties of the sources                         *)
(* ===================================================================== *)

(** ** Clients constructed by [getQueryClient] *)

(** X1.  A run of calls constructs one client for each server call and, on
    top of that, exactly one client when the run has a browser call and
    nothing was stored before; it constructs nothing else.  So a browser
    session holds one client however often [getQueryClient] is called. *)
Theorem X1_clients_constructed :
  forall (envs : list bool) (p : Process),
    length (heap (snd (calls envs p)))
    = (length (heap p)
       + length (List.filter (fun e : bool => e) envs)
       + (if not_ (browserQueryClient p) && existsb negb envs then 1 else 0))%nat.
Proof.
  induction envs as [|e rest IH]; intros p.
  - simpl. rewrite andb_false_r. lia.
  - rewrite calls_cons. cbn [snd]. rewrite IH. step_cases e p.
    + rewrite length_app. cbn. lia.
    + cbn. lia.
    + rewrite length_app. cbn. lia.
Qed.

(** With a fetch that cannot fail, the two models of a call coincide. *)
Lemma Fetching_perform_success (network : QueryFn -> PostsResponse)
    (c : LibraryCall) (cache : QueryCache) :
  Fetching.perform (fun f => Some (network f)) c cache = perform network c cache.
Proof. destruct c; reflexivity. Qed.

Lemma Fetching_SSRDemoPage_server
    (network : QueryFn -> option PostsResponse) (p : Process) :
  Fetching.SSRDemoPage true network p =
    (Some (length (heap p)),
     {| heap := heap p ++
          [{| config := fixedConfig;
              queryCache :=
                match network (FetchPosts 1500) with
                | Some data => {[ [KString "posts"; KNumber 1500] := data ]}
                | None => ∅
                end |}];
        browserQueryClient := browserQueryClient p;
        accesses := accesses p |}).
Proof.
  unfold Fetching.SSRDemoPage. rewrite bind_unfold, getQueryClient_server.
  cbn [fst snd]. rewrite bind_unfold. unfold Fetching.method, ret.
  cbn [allocated heap browserQueryClient accesses].
  rewrite list_lookup_middle by reflexivity.
  cbn [Fetching.perform SSRDemoPage_prefetch newQueryClient queryCache config fst snd].
  rewrite lookup_empty.
  change (queryFn (postsQueryOptions (Some 1500))) with (FetchPosts 1500).
  change (queryKey (postsQueryOptions (Some 1500)))
    with [KString "posts"; KNumber 1500].
  rewrite insert_app_r_alt by lia. rewrite Nat.sub_diag.
  destruct (network (FetchPosts 1500)) as [data|].
  - rewrite insert_empty. reflexivity.
  - reflexivity.
Qed.

(** X2.  Two requests rendered one after the other by the same server
    process, each with a fetch that may succeed or fail: each
    [SSRDemoPage] works on a client of its own, and after both each client
    holds, under [['posts', 1500]], the data its own request fetched when
    that fetch succeeded, and no data when it failed.  The second request
    does not see, and does not replace, what the first one left. *)
Theorem X2_ssr_requests_do_not_share_data :
  forall (network1 network2 : QueryFn -> option PostsResponse) (p : Process),
    let first := Fetching.SSRDemoPage true network1 p in
    let second := Fetching.SSRDemoPage true network2 (snd first) in
    exists r1 r2 : Ref,
      fst first = Some r1 /\ fst second = Some r2 /\ r1 <> r2
      /\ queryCache <$> heap (snd second) !! r1
         = Some (match network1 (FetchPosts 1500) with
                 | Some data => {[ [KString "posts"; KNumber 1500] := data ]}
                 | None => ∅
                 end)
      /\ queryCache <$> heap (snd second) !! r2
         = Some (match network2 (FetchPosts 1500) with
                 | Some data => {[ [KString "posts"; KNumber 1500] := data ]}
                 | None => ∅
                 end)
      /\ browserQueryClient (snd second) = browserQueryClient p.
Proof.
  intros network1 network2 p first second. unfold second, first.
  rewrite !Fetching_SSRDemoPage_server. cbn [fst snd heap browserQueryClient].
  exists (length (heap p)).
  eexists. split; [reflexivity | split; [reflexivity |]].
  split; [rewrite length_app; cbn [length]; lia |].
  split; [| split; [| reflexivity]].
  - rewrite lookup_app_l by (rewrite length_app; cbn [length]; lia).
    rewrite list_lookup_middle by reflexivity. reflexivity.
  - rewrite list_lookup_middle by reflexivity. reflexivity.
Qed.

(** ** More on the mock endpoint *)

Module EndpointFacts.
Import Observe.

Lemma digitsOf_append (fuel : nat) :
  forall (n : Z) (rest tail : string),
    String.append (digitsOf fuel n rest) tail
    = digitsOf fuel n (String.append rest tail).
Proof.
  induction fuel as [|fuel IH]; intros n rest tail.
  - reflexivity.
  - cbn [digitsOf]. destruct (n <? 10).
    + reflexivity.
    + rewrite IH. reflexivity.
Qed.

Lemma append_cons (c : ascii) (s t : string) :
  String.append (String c s) t = String c (String.append s t).
Proof. reflexivity. Qed.

Lemma append_empty (t : string) : String.append "" t = t.
Proof. reflexivity. Qed.

Lemma readDigits_stops (n : Z) (tail : string) :
  noLeadingDigit tail = true -> readDigits 10 (Some n) tail = Some n.
Proof.
  destruct tail as [|c r]; [reflexivity |].
  cbn [noLeadingDigit readDigits]. intros Hc.
  destruct (radixDigit 10 c) as [d|] eqn:Hd; [| reflexivity].
  assert (Hdigit : (48 <=? code c) && (code c <=? 57) = true)
    by (apply radixDigit_10_decimal; rewrite Hd; eexists; reflexivity).
  rewrite Hdigit in Hc. discriminate Hc.
Qed.

(** [parseInt] reads the integer a text begins with and ignores what
    follows it (exact arithmetic of the embedding; JavaScript's result for
    safe integers). *)
Lemma parseInt_toString_tail (z : Z) (tail : string) :
  noLeadingDigit tail = true ->
  parseInt (String.append (toString z) tail) 10 = Num z.
Proof.
  intros Htail. rewrite parseInt_10. unfold toString.
  destruct (z <? 0) eqn:Hneg.
  - apply Z.ltb_lt in Hneg. rewrite append_cons, digitsOf_append, append_empty.
    rewrite trimStart_printable by (vm_compute; split; [discriminate | reflexivity]).
    cbn [stripSign]. change (code (ascii_of_N 45) =? 45) with true.
    cbn [fst snd].
    rewrite readDigits_digitsOf by (split; [lia | apply log2_fuel; lia]).
    rewrite (readDigits_stops _ _ Htail). f_equal. lia.
  - apply Z.ltb_ge in Hneg. rewrite digitsOf_append, append_empty.
    destruct (digitsOf_head (Z.to_nat (Z.log2 z)) z tail Hneg) as (d & r & Hd & Hhead).
    assert (Hread : readDigits 10 None (digitsOf (S (Z.to_nat (Z.log2 z))) z tail) = Some z).
    { rewrite readDigits_digitsOf by (split; [lia | apply log2_fuel; lia]).
      apply readDigits_stops, Htail. }
    rewrite Hhead in *.
    rewrite trimStart_printable by (rewrite code_digitChar; lia).
    unfold stripSign. rewrite (code_digitChar d Hd).
    replace (48 + d =? 45) with false by (symmetry; apply Z.eqb_neq; lia).
    replace (48 + d =? 43) with false by (symmetry; apply Z.eqb_neq; lia).
    cbn [fst snd]. rewrite Hread. f_equal. lia.
Qed.

Lemma append_nonempty (s tail : string) : s <> "" -> String.append s tail <> "".
Proof. destruct s; [contradiction | discriminate]. Qed.

(** X3.  The handler reads the integer its [delay] parameter begins with
    and ignores whatever follows it: when the parameter is the decimal
    notation of a safe integer [z] followed by any text that does not
    begin with a digit (a unit, a fraction, an exponent, nothing), the
    timer it awaits has delay [z]. *)
Theorem X3_delay_suffix_ignored :
  forall (request : NextRequest) (w : World) (z : Z) (tail : string),
    JSNumber.isSafeInteger z = true ->
    delayParam request = Some (String.append (toString z) tail) ->
    noLeadingDigit tail = true ->
    events (snd (GET request w))
    = events w ++ [SetTimeout (Num z); DateNow (clock w (clockReads w))].
Proof.
  intros request w z tail _ Hparam Htail. rewrite GET_unfold. cbn [snd events].
  rewrite Hparam.
  rewrite (or_else_nonempty _ "1000" (append_nonempty _ tail (toString_nonempty z))).
  rewrite (parseInt_toString_tail z tail Htail). reflexivity.
Qed.

Lemma X3_delay_suffix_ignored_witness :
  events (snd (GET (request_with [("delay", "250ms")]) (loaded (fun _ => "t0"))))
  = [SetTimeout (Num 250); DateNow "t0"]
  /\ events (snd (GET (request_with [("delay", "-12.5")]) (loaded (fun _ => "t0"))))
     = [SetTimeout (Num (-12)); DateNow "t0"].
Proof.
  split.
  - apply (X3_delay_suffix_ignored (request_with [("delay", "250ms")])
             (loaded (fun _ => "t0")) 250 "ms"); reflexivity.
  - apply (X3_delay_suffix_ignored (request_with [("delay", "-12.5")])
             (loaded (fun _ => "t0")) (-12) ".5"); reflexivity.
Defined.



End EndpointFacts.

(** ** From [fetchPosts] to the endpoint *)

Module FetchFacts.
Import Observe JSLib FetchPosts.

Lemma ascii_eqb_code (c : ascii) (n : N) :
  (n < 256)%N -> Ascii.eqb c (ascii_of_N n) = (code c =? Z.of_N n).
Proof.
  intros Hn. unfold code. destruct (Ascii.eqb_spec c (ascii_of_N n)) as [-> | Hne].
  - rewrite N_ascii_embedding by exact Hn. symmetry. apply Z.eqb_refl.
  - symmetry. apply Z.eqb_neq. intros Heq. apply Hne.
    rewrite <- (ascii_N_embedding c). f_equal. lia.
Qed.

Lemma allChars_weaken (P Q : ascii -> bool) (s : string) :
  (forall c, P c = true -> Q c = true) ->
  allChars P s = true -> allChars Q s = true.
Proof.
  intros HPQ. induction s as [|c r IH]; [reflexivity |].
  cbn [allChars]. intros [Hc Hr]%andb_true_iff.
  rewrite (HPQ c Hc), (IH Hr). reflexivity.
Qed.

Lemma allChars_append (P : ascii -> bool) (s t : string) :
  allChars P s = true -> allChars P t = true ->
  allChars P (String.append s t) = true.
Proof.
  intros Hs Ht. induction s as [|c r IH]; [exact Ht |].
  rewrite EndpointFacts.append_cons. cbn [allChars] in *.
  apply andb_true_iff in Hs as [Hc Hr].
  rewrite Hc, (IH Hr). reflexivity.
Qed.

Lemma upTo_absent (sep : ascii) (s : string) :
  allChars (fun c => negb (Ascii.eqb c sep)) s = true -> upTo sep s = s.
Proof.
  induction s as [|c r IH]; [reflexivity |].
  cbn [allChars upTo]. intros [Hc Hr]%andb_true_iff.
  apply negb_true_iff in Hc. rewrite Hc, (IH Hr). reflexivity.
Qed.

Lemma cutAt_append_absent (sep : ascii) (s t : string) :
  allChars (fun c => negb (Ascii.eqb c sep)) s = true ->
  cutAt sep (String.append s t)
  = match cutAt sep t with
    | Some (before, after) => Some (String.append s before, after)
    | None => None
    end.
Proof.
  induction s as [|c r IH].
  - intros _. rewrite EndpointFacts.append_empty.
    destruct (cutAt sep t) as [[before after]|]; reflexivity.
  - rewrite EndpointFacts.append_cons. cbn [allChars cutAt].
    intros [Hc Hr]%andb_true_iff.
    apply negb_true_iff in Hc. rewrite Hc, (IH Hr).
    destruct (cutAt sep t) as [[before after]|]; reflexivity.
Qed.

Lemma split_absent (sep : ascii) (s : string) :
  allChars (fun c => negb (Ascii.eqb c sep)) s = true -> split sep s = [s].
Proof.
  induction s as [|c r IH]; [reflexivity |].
  cbn [allChars split]. intros [Hc Hr]%andb_true_iff.
  apply negb_true_iff in Hc. rewrite Hc, (IH Hr). reflexivity.
Qed.

Lemma plusToSpace_absent (s : string) :
  allChars (fun c => negb (code c =? 43)) s = true -> plusToSpace s = s.
Proof.
  induction s as [|c r IH]; [reflexivity |].
  cbn [allChars plusToSpace]. intros [Hc Hr]%andb_true_iff.
  apply negb_true_iff in Hc. rewrite Hc, (IH Hr). reflexivity.
Qed.

Lemma percentDecode_absent (s : string) :
  allChars (fun c => negb (code c =? 37)) s = true -> percentDecode s = s.
Proof.
  induction s as [|c r IH]; [reflexivity |].
  cbn [allChars percentDecode]. intros [Hc Hr]%andb_true_iff.
  apply negb_true_iff in Hc. rewrite Hc, (IH Hr). destruct r; reflexivity.
Qed.

(** What [toString] prints is made of a minus sign and digits. *)
Lemma digitsOf_chars (fuel : nat) :
  forall (n : Z) (rest : string),
    0 <= n -> allChars numberChar rest = true ->
    allChars numberChar (digitsOf fuel n rest) = true.
Proof.
  induction fuel as [|fuel IH]; intros n rest Hn Hrest; [exact Hrest |].
  cbn [digitsOf].
  assert (Hd : numberChar (digitChar (n mod 10)) = true).
  { unfold numberChar.
    rewrite code_digitChar by (apply Z.mod_pos_bound; lia).
    pose proof (Z.mod_pos_bound n 10 ltac:(lia)).
    apply orb_true_iff. right. apply andb_true_iff. split; apply Z.leb_le; lia. }
  destruct (n <? 10).
  - cbn [allChars]. rewrite Hd, Hrest. reflexivity.
  - apply IH; [apply Z.div_pos; lia |]. cbn [allChars]. rewrite Hd, Hrest. reflexivity.
Qed.

Lemma toString_chars (z : Z) : allChars numberChar (toString z) = true.
Proof.
  unfold toString. destruct (z <? 0) eqn:Hneg.
  - apply Z.ltb_lt in Hneg. cbn [allChars].
    rewrite digitsOf_chars by (lia || reflexivity). reflexivity.
  - apply Z.ltb_ge in Hneg. apply digitsOf_chars; [lia | reflexivity].
Qed.

Lemma numberChar_not (k : Z) (c : ascii) :
  k <> 45 -> ~ 48 <= k <= 57 ->
  numberChar c = true -> negb (code c =? k) = true.
Proof.
  intros Hk1 Hk2. unfold numberChar. intros [H | [H1 H2]%andb_true_iff]%orb_true_iff.
  - apply Z.eqb_eq in H. apply negb_true_iff, Z.eqb_neq. lia.
  - apply Z.leb_le in H1, H2. apply negb_true_iff, Z.eqb_neq. lia.
Qed.

Lemma numberChar_not_sep (n : N) (c : ascii) :
  (n < 256)%N -> Z.of_N n <> 45 -> ~ 48 <= Z.of_N n <= 57 ->
  numberChar c = true -> negb (Ascii.eqb c (ascii_of_N n)) = true.
Proof.
  intros Hn Hk1 Hk2 Hc. rewrite (ascii_eqb_code c n Hn).
  apply (numberChar_not (Z.of_N n) c Hk1 Hk2 Hc).
Qed.

(** The query of the URL of [fetchPosts] parses to the one pair
    [delay=<the delay>]. *)
Lemma parseQuery_delay (ds : string) :
  allChars numberChar ds = true ->
  parseQuery (String.append "delay=" ds) = [("delay", ds)].
Proof.
  intros Hds. unfold parseQuery.
  rewrite split_absent.
  - cbn [flat_map]. rewrite app_nil_r.
    change (parsePiece (String.append "delay=" ds))
      with [("delay", percentDecode (plusToSpace ds))].
    rewrite plusToSpace_absent, percentDecode_absent.
    + reflexivity.
    + apply (allChars_weaken numberChar); [| exact Hds].
      intros c. apply numberChar_not; lia.
    + apply (allChars_weaken numberChar); [| exact Hds].
      intros c. apply numberChar_not; lia.
  - apply allChars_append; [reflexivity |].
    apply (allChars_weaken numberChar); [| exact Hds].
    intros c. apply numberChar_not_sep; lia.
Qed.

Lemma searchParamsOf_fetchPosts_url (base ds : string) :
  noQueryNoFragment base = true ->
  allChars numberChar ds = true ->
  searchParamsOf (String.append base (String.append "/api/posts?delay=" ds))
  = [("delay", ds)].
Proof.
  intros Hbase Hds. unfold searchParamsOf, queryOf.
  assert (Hq : allChars (fun c => negb (Ascii.eqb c (ascii_of_N 63))) base = true
               /\ allChars (fun c => negb (Ascii.eqb c (ascii_of_N 35))) base = true).
  { clear Hds. induction base as [|c r IH]; [split; reflexivity |].
    cbn [noQueryNoFragment allChars] in *.
    apply andb_true_iff in Hbase as [[H63 H35]%andb_true_iff Hr].
    destruct (IH Hr) as [IH1 IH2]. rewrite IH1, IH2.
    rewrite !ascii_eqb_code by lia. change (Z.of_N 63) with 63.
    change (Z.of_N 35) with 35. rewrite H63, H35. split; reflexivity. }
  destruct Hq as [Hquery Hfragment].
  rewrite upTo_absent.
  - rewrite (cutAt_append_absent _ base _ Hquery).
    change (cutAt (ascii_of_N 63) (String.append "/api/posts?delay=" ds))
      with (Some ("/api/posts", String.append "delay=" ds)).
    apply parseQuery_delay, Hds.
  - apply allChars_append; [exact Hfragment |].
    apply allChars_append; [reflexivity |].
    apply (allChars_weaken numberChar); [| exact Hds].
    intros c. apply numberChar_not_sep; lia.
Qed.

(** X5.  [fetchPosts(d)] and the endpoint agree on the delay.  When the
    base URL holds no [?] and no [#] (always so in the browser, where it
    is empty, and on the server without [NEXT_PUBLIC_BASE_URL], where it is
    [http://localhost:3001]), the URL that [fetchPosts] requests has the
    one search parameter [delay], whose value is the decimal notation of
    the delay, and the handler that receives it waits exactly that delay,
    for every delay that is a safe integer, negative ones included; an
    omitted delay waits 1000. *)
Theorem X5_fetchPosts_reaches_endpoint :
  forall (isServer : bool) (env : option string) (delay : option Z) (w : World),
    noQueryNoFragment (getBaseUrl isServer env) = true ->
    JSNumber.isSafeInteger (default 1000 delay) = true ->
    let request := request_with (searchParamsOf (fetchPosts_url isServer env delay)) in
    searchParams (nextUrl request) = [("delay", toString (default 1000 delay))]
    /\ events (snd (GET request w))
       = events w ++ [SetTimeout (Num (default 1000 delay));
                      DateNow (clock w (clockReads w))].
Proof.
  intros isServer env delay w Hbase _ request.
  assert (Hparams : searchParamsOf (fetchPosts_url isServer env delay)
                    = [("delay", toString (default 1000 delay))]).
  { unfold fetchPosts_url. cbv zeta.
    apply searchParamsOf_fetchPosts_url; [exact Hbase | apply toString_chars]. }
  split; [exact Hparams |].
  unfold request. rewrite GET_unfold. cbn [snd events]. unfold delayParam.
  cbn [request_with nextUrl searchParams]. rewrite Hparams.
  cbn [get]. change (String.eqb "delay" "delay") with true. cbv iota.
  rewrite (or_else_nonempty _ "1000" (toString_nonempty _)), parseInt_toString.
  reflexivity.
Qed.

Lemma X5_fetchPosts_reaches_endpoint_witness :
  events (snd (GET (request_with (searchParamsOf (fetchPosts_url false None (Some 1500))))
                 (loaded (fun _ => "t0"))))
  = [SetTimeout (Num 1500); DateNow "t0"]
  /\ events (snd (GET (request_with
                         (searchParamsOf (fetchPosts_url true (Some "") None)))
                    (loaded (fun _ => "t0"))))
     = [SetTimeout (Num 1000); DateNow "t0"].
Proof.
  split.
  - apply (X5_fetchPosts_reaches_endpoint false None (Some 1500)
             (loaded (fun _ => "t0"))); reflexivity.
  - apply (X5_fetchPosts_reaches_endpoint true (Some "") None
             (loaded (fun _ => "t0"))); reflexivity.
Defined.

End FetchFacts.

(** ** The timing indicator *)

Module TimingFacts.
Import JSLib TimingIndicator.

(** X6.  The three marks of the indicator exclude each other and one of
    them is always shown: the spinner when only the start is known, the
    check mark when start and end are known, the idle dot exactly when the
    start is unknown, whether or not an end is given. *)
Theorem X6_exactly_one_mark :
  forall (props : Props) (currentTime : Z),
    let v := render props currentTime in
    ((spinner v = true /\ checkMark v = false /\ idleDot v = false)
     \/ (spinner v = false /\ checkMark v = true /\ idleDot v = false)
     \/ (spinner v = false /\ checkMark v = false /\ idleDot v = true))
    /\ (idleDot v = true <-> startTime props = None)
    /\ (spinner v = true <-> startTime props <> None /\ endTime props = None).
Proof.
  intros [s e l] t. unfold render, isLoading, isComplete. cbn.
  destruct s as [s|], e as [e|]; cbn; repeat split;
    try (intros; discriminate); try (intros; congruence); auto.
  all: try (intros [H1 H2]; congruence).
Qed.

(** X7.  The interval that refreshes the clock is started on truthiness,
    the spinner is shown on non-nullness.  For times other than 0 the two
    agree: the interval runs exactly while the spinner is shown. *)
Theorem X7_interval_runs_while_loading :
  forall props : Props,
    startTime props <> Some 0 -> endTime props <> Some 0 ->
    intervalRuns props = isLoading props.
Proof.
  intros [s e l]. unfold intervalRuns, isLoading, truthy. cbn.
  intros Hs He. destruct s as [s|], e as [e|]; cbn; try reflexivity.
  - destruct (Z.eqb_spec e 0) as [-> | _]; [contradiction |].
    cbn. apply andb_false_r.
  - destruct (Z.eqb_spec s 0) as [-> | _]; [contradiction | reflexivity].
Qed.

Lemma X7_interval_runs_while_loading_witness :
  intervalRuns {| startTime := Some 1700000000000; endTime := None; label := "" |}
  = true.
Proof.
  rewrite (X7_interval_runs_while_loading
             {| startTime := Some 1700000000000; endTime := None; label := "" |});
    [reflexivity | discriminate | discriminate].
Defined.

(** X8.  The current time, the state the interval refreshes, matters only
    while the interval runs: whenever the interval is not running, what is
    rendered is the same for every current time. *)
Theorem X8_clock_only_matters_while_running :
  forall (props : Props) (t1 t2 : Z),
    intervalRuns props = false ->
    render props t1 = render props t2.
Proof.
  intros props t1 t2 Hidle. unfold render.
  assert (He : elapsed props t1 = elapsed props t2).
  { unfold elapsed. unfold intervalRuns in Hidle.
    destruct (truthy (endTime props)); [reflexivity |].
    destruct (truthy (startTime props)); [discriminate Hidle | reflexivity]. }
  rewrite He. reflexivity.
Qed.

Lemma X8_clock_only_matters_while_running_witness :
  render {| startTime := Some 100; endTime := Some 350; label := "API" |} 0
  = render {| startTime := Some 100; endTime := Some 350; label := "API" |} 999.
Proof.
  apply X8_clock_only_matters_while_running. reflexivity.
Defined.

(** X9.  With a start and an end that are safe integers other than 0 and
    whose difference is a safe integer (as the readings of [Date.now()]
    are), the indicator shows the check mark and the difference
    [endTime - startTime] followed by [ms] when that difference is
    positive; when it is not (the two times are equal, as for the mount
    indicator of the CSR page, or the end precedes the start) it shows
    [-]. *)
Theorem X9_completed_duration :
  forall (s e : Z) (l : string) (currentTime : Z),
    JSNumber.isSafeInteger s = true ->
    JSNumber.isSafeInteger e = true ->
    JSNumber.isSafeInteger (e - s) = true ->
    s <> 0 -> e <> 0 ->
    let v := render {| startTime := Some s; endTime := Some e; label := l |}
               currentTime in
    checkMark v = true
    /\ spinner v = false
    /\ elapsedText v
       = if s <? e then String.append (JS.toString (e - s)) "ms" else "-".
Proof.
  intros s e l t _ _ _ Hs He v. unfold v, render, elapsed, or_number, isLoading,
    isComplete, truthy. cbn.
  destruct (Z.eqb_spec e 0) as [-> | _]; [contradiction |].
  destruct (Z.eqb_spec s 0) as [-> | _]; [contradiction |].
  cbn. repeat split.
  destruct (Z.ltb_spec s e) as [Hlt | Hge].
  - replace (0 <? e - s) with true by (symmetry; apply Z.ltb_lt; lia). reflexivity.
  - replace (0 <? e - s) with false by (symmetry; apply Z.ltb_ge; lia). reflexivity.
Qed.

Lemma X9_completed_duration_witness :
  elapsedText (render {| startTime := Some 100; endTime := Some 350; label := "API" |} 0)
  = "250ms"
  /\ elapsedText (render {| startTime := Some 100; endTime := Some 100; label := "mount" |} 0)
     = "-".
Proof.
  split.
  - apply (X9_completed_duration 100 350 "API" 0);
      (reflexivity || discriminate).
  - apply (X9_completed_duration 100 100 "mount" 0);
      (reflexivity || discriminate).
Defined.

End TimingFacts.

(** ** The code listing *)

Module CodeBlockFacts.
Import JSLib CodeBlock Observe.

Lemma split_nonempty (sep : ascii) (s : string) : split sep s <> [].
Proof.
  destruct s as [|c r]; [discriminate |]. cbn [split].
  destruct (Ascii.eqb c sep); [discriminate |].
  destruct (split sep r); discriminate.
Qed.

Lemma concat_split (sep : ascii) (s : string) :
  String.concat (String sep EmptyString) (split sep s) = s.
Proof.
  induction s as [|c r IH]; [reflexivity |]. cbn [split].
  destruct (Ascii.eqb_spec c sep) as [-> | Hne].
  - pose proof (split_nonempty sep r) as Hr.
    destruct (split sep r) as [|piece pieces] eqn:Hsplit; [contradiction |].
    cbn [String.concat] in *. rewrite IH. reflexivity.
  - pose proof (split_nonempty sep r) as Hr.
    destruct (split sep r) as [|piece pieces] eqn:Hsplit; [contradiction |].
    cbn [String.concat] in *. destruct pieces as [|piece' pieces'].
    + rewrite IH. reflexivity.
    + rewrite <- IH. reflexivity.
Qed.

Lemma length_split (s : string) :
  length (split (ascii_of_N 10) s) = S (lineFeeds s).
Proof.
  induction s as [|c r IH]; [reflexivity |]. cbn [split lineFeeds].
  destruct (Ascii.eqb c (ascii_of_N 10)).
  - cbn [length]. rewrite IH. reflexivity.
  - pose proof (split_nonempty (ascii_of_N 10) r) as Hr.
    destruct (split (ascii_of_N 10) r) as [|piece pieces]; [contradiction |].
    cbn [length] in *. lia.
Qed.

Lemma mapRows_text (h : list Z) (lines : list string) :
  forall index : Z, map text (mapRows h index lines) = lines.
Proof.
  induction lines as [|line rest IH]; intros index; [reflexivity |].
  cbn [mapRows map text]. rewrite IH. reflexivity.
Qed.

Lemma mapRows_lookup (h : list Z) (lines : list string) :
  forall (index : Z) (i : nat) (row : Row),
    mapRows h index lines !! i = Some row ->
    exists line,
      lines !! i = Some line
      /\ row = {| key := index + Z.of_nat i;
                  className :=
                    if includes h (index + Z.of_nat i + 1)
                    then "bg-yellow-100 dark:bg-yellow-900/30 -mx-4 px-4"
                    else "";
                  number := index + Z.of_nat i + 1;
                  text := line |}.
Proof.
  induction lines as [|line rest IH]; intros index i row Hrow.
  - destruct i; discriminate Hrow.
  - destruct i as [|i]; cbn [mapRows] in Hrow.
    + apply (inj Some) in Hrow. subst row. exists line.
      split; [reflexivity |]. rewrite Z.add_0_r. reflexivity.
    + change (mapRows h (index + 1) rest !! i = Some row) in Hrow.
      destruct (IH _ _ _ Hrow) as (l & Hl & ->). exists l.
      split; [exact Hl |].
      replace (index + 1 + Z.of_nat i) with (index + Z.of_nat (S i)) by lia.
      reflexivity.
Qed.

(** X10.  The listing loses nothing of the code: joining the texts of its
    rows with line feeds gives the code back, and there is one row more
    than the code has line feeds; so even empty code has one, empty, row. *)
Theorem X10_listing_round_trip :
  forall props : Props,
    String.concat (String (ascii_of_N 10) EmptyString)
      (map text (rows (CodeBlock props)))
    = code props
    /\ length (rows (CodeBlock props)) = S (lineFeeds (code props)).
Proof.
  intros props. unfold CodeBlock. cbn [rows]. split.
  - rewrite mapRows_text. apply concat_split.
  - rewrite <- (length_map text), mapRows_text. apply length_split.
Qed.

(** X11.  The row at position [i] (from 0) has key [i], shows the line
    number [i + 1] and the [i]-th line of the code, and has the highlight
    class exactly when [i + 1] is among the [highlight] numbers; without
    [highlight] no row has it. *)
Theorem X11_rows_numbered_and_highlighted :
  forall (props : Props) (i : nat) (row : Row),
    rows (CodeBlock props) !! i = Some row ->
    key row = Z.of_nat i
    /\ number row = Z.of_nat i + 1
    /\ split (ascii_of_N 10) (code props) !! i = Some (text row)
    /\ className row
       = (if includes (default [] (highlight props)) (Z.of_nat i + 1)
          then "bg-yellow-100 dark:bg-yellow-900/30 -mx-4 px-4"
          else "").
Proof.
  intros props i row Hrow. unfold CodeBlock in Hrow. cbn [rows] in Hrow.
  destruct (mapRows_lookup _ _ _ _ _ Hrow) as (line & Hline & ->).
  cbn [key number text className]. rewrite !Z.add_0_l. repeat split. exact Hline.
Qed.

Lemma X11_rows_numbered_and_highlighted_witness :
  let props := {| code := String "a" (String (ascii_of_N 10) "b");
                  language := None; title := None; highlight := Some [2; 7] |} in
  exists row, rows (CodeBlock props) !! 1%nat = Some row
              /\ number row = 2 /\ text row = "b"
              /\ className row = "bg-yellow-100 dark:bg-yellow-900/30 -mx-4 px-4".
Proof.
  cbv zeta. eexists. split; [reflexivity |].
  destruct (X11_rows_numbered_and_highlighted
              {| code := String "a" (String (ascii_of_N 10) "b");
                 language := None; title := None; highlight := Some [2; 7] |}
              1 _ eq_refl) as (_ & Hn & _ & Hc).
  split; [exact Hn | split; [reflexivity | exact Hc]].
Defined.

Lemma includes_filter (P : Z -> bool) (h : list Z) (k : Z) :
  P k = true -> includes (List.filter P h) k = includes h k.
Proof.
  intros Hk. unfold includes. induction h as [|x h IH]; [reflexivity |].
  cbn [List.filter existsb]. destruct (P x) eqn:Hx.
  - cbn [existsb]. rewrite IH. reflexivity.
  - rewrite IH. destruct (Z.eqb_spec k x) as [-> | _]; [congruence | reflexivity].
Qed.

Lemma mapRows_ext (h h' : list Z) (lines : list string) :
  forall index : Z,
    (forall k, index < k <= index + Z.of_nat (length lines) ->
               includes h k = includes h' k) ->
    mapRows h index lines = mapRows h' index lines.
Proof.
  induction lines as [|line rest IH]; intros index Hext; [reflexivity |].
  cbn [mapRows]. cbn [length] in Hext. rewrite (Hext (index + 1)) by lia.
  rewrite (IH (index + 1)); [reflexivity |].
  intros k Hk. apply Hext. lia.
Qed.

(** X12.  Highlight numbers that name no line, 0, negative numbers and
    numbers beyond the last line, have no effect: dropping them from
    [highlight] renders the same block. *)
Theorem X12_highlight_out_of_range_ignored :
  forall (props : Props) (h : list Z),
    highlight props = Some h ->
    let n := Z.of_nat (length (split (ascii_of_N 10) (code props))) in
    CodeBlock props
    = CodeBlock {| code := code props;
                   language := language props;
                   title := title props;
                   highlight :=
                     Some (List.filter (fun k => (1 <=? k) && (k <=? n)) h) |}.
Proof.
  intros props h Hh n. unfold CodeBlock. cbn [code language title highlight].
  rewrite Hh. cbn [default from_option]. unfold Datatypes.id. f_equal.
  apply mapRows_ext. intros k Hk. symmetry. apply includes_filter.
  apply andb_true_iff. split; apply Z.leb_le; unfold n; lia.
Qed.

Lemma X12_highlight_out_of_range_ignored_witness :
  CodeBlock {| code := "x"; language := None; title := None;
               highlight := Some [0; 1; 5] |}
  = CodeBlock {| code := "x"; language := None; title := None;
                 highlight := Some [1] |}.
Proof.
  apply (X12_highlight_out_of_range_ignored
           {| code := "x"; language := None; title := None;
              highlight := Some [0; 1; 5] |} [0; 1; 5]).
  reflexivity.
Defined.

End CodeBlockFacts.

(** ** The timing state of the CSR page *)

Module CSRFacts.
Import JSLib CSRDemoPage Observe.

(** The invariant behind X13: the recorded times are readings not later
    than [c]; an end is recorded only with a start that is not 0 and not
    later than it. *)
Lemma step_keeps_order (t : Timing) (c : Z) (s : Step) :
  (forall x, startTime t = Some x -> x <= c) ->
  (forall e, endTime t = Some e ->
     e <= c /\ exists x, startTime t = Some x /\ x <> 0 /\ x <= e) ->
  c <= clockOf s ->
  (forall x, startTime (step t s) = Some x -> x <= clockOf s)
  /\ (forall e, endTime (step t s) = Some e ->
        e <= clockOf s
        /\ exists x, startTime (step t s) = Some x /\ x <> 0 /\ x <= e).
Proof.
  intros Hstart Hend Hc. destruct t as [st en], s as [il now | now];
    cbn [step effect handleRefresh clockOf startTime endTime] in *.
  - destruct il; cbn [andb negb].
    + (* loading: only the start may be set *)
      split.
      * intros x. destruct (truthy st) eqn:Hst; cbn [negb].
        -- intros Hx. specialize (Hstart x Hx). lia.
        -- intros [= <-]. lia.
      * intros e He. destruct (Hend e He) as (Hle & x & -> & Hx0 & Hxe).
        split; [lia |]. exists x.
        replace (truthy (Some x)) with true
          by (symmetry; cbn; apply negb_true_iff, Z.eqb_neq; exact Hx0).
        cbn [negb]. repeat split; assumption.
    + (* not loading: only the end may be set *)
      split.
      * intros x Hx. specialize (Hstart x Hx). lia.
      * intros e. destruct (truthy st) eqn:Hst; cbn [andb].
        -- destruct (truthy en) eqn:Hen; cbn [negb].
           ++ intros He. destruct (Hend e He) as (Hle & x & Hx & Hx0 & Hxe).
              split; [lia |]. exists x. repeat split; assumption.
           ++ intros [= <-]. split; [lia |].
              destruct st as [x|]; [| discriminate Hst]. exists x.
              split; [reflexivity |]. split.
              ** cbn in Hst. apply negb_true_iff, Z.eqb_neq in Hst. exact Hst.
              ** specialize (Hstart x eq_refl). lia.
        -- intros He. destruct (Hend e He) as (Hle & x & Hx & Hx0 & Hxe).
           split; [lia |]. exists x. repeat split; assumption.
  - split.
    + intros x [= <-]. lia.
    + intros e He. discriminate He.
Qed.

Lemma run_keeps_order (steps : list Step) :
  forall (t : Timing) (c : Z),
    (forall x, startTime t = Some x -> x <= c) ->
    (forall e, endTime t = Some e ->
       e <= c /\ exists x, startTime t = Some x /\ x <> 0 /\ x <= e) ->
    clockAdvances c steps ->
    forall e, endTime (run steps t) = Some e ->
      exists x, startTime (run steps t) = Some x /\ x <> 0 /\ x <= e.
Proof.
  induction steps as [|s rest IH]; intros t c Hstart Hend Hclock e He.
  - destruct (Hend e He) as (_ & x & Hx). exists x. exact Hx.
  - cbn [clockAdvances] in Hclock. destruct Hclock as [Hc Hrest].
    destruct (step_keeps_order t c s Hstart Hend Hc) as [Hstart' Hend'].
    apply (IH (step t s) (clockOf s) Hstart' Hend' Hrest e He).
Qed.

(** X13.  Whatever the page goes through after it is mounted, effect runs
    with or without loading and clicks on the refresh button in any order,
    as long as the clock never goes back: when an end time is recorded, a
    start time is recorded too, it is not 0 and it is not later than the
    end. *)
Theorem X13_end_never_before_start :
  forall (steps : list Step) (c : Z) (e : Z),
    clockAdvances c steps ->
    endTime (run steps mounted) = Some e ->
    exists s, startTime (run steps mounted) = Some s /\ s <> 0 /\ s <= e.
Proof.
  intros steps c e Hclock He.
  apply (run_keeps_order steps mounted c); try assumption.
  - intros x Hx. discriminate Hx.
  - intros e' He'. discriminate He'.
Qed.

Lemma X13_end_never_before_start_witness :
  exists s, startTime (run [Effect true 100; Effect true 130; Effect false 250;
                            Refresh 400; Effect false 410] mounted) = Some s
            /\ s <> 0 /\ s <= 410.
Proof.
  apply (X13_end_never_before_start
           [Effect true 100; Effect true 130; Effect false 250;
            Refresh 400; Effect false 410] 0 410).
  - cbn. lia.
  - reflexivity.
Defined.

(** X14.  A page that never sees [isLoading] (its data was in the cache
    when it mounted) records no time at all, however often its effect
    runs: the loading indicator stays idle. *)
Theorem X14_no_loading_no_timing :
  forall steps : list Step,
    Forall (fun s => exists now, s = Effect false now) steps ->
    run steps mounted = mounted.
Proof.
  intros steps Hall. unfold run. induction Hall as [|s rest [now ->] _ IH].
  - reflexivity.
  - cbn [fold_left step]. exact IH.
Qed.

Lemma X14_no_loading_no_timing_witness :
  run [Effect false 100; Effect false 200] mounted = mounted.
Proof.
  apply X14_no_loading_no_timing.
  repeat constructor; eexists; reflexivity.
Defined.

(** X15.  Running the effect again changes nothing: after one run with a
    clock reading other than 0, a second run that sees the same
    [isLoading] leaves the timing state as it is, whatever the clock says
    then.  So the re-render that a state update causes does not record a
    second time. *)
Theorem X15_effect_settles :
  forall (isLoading : bool) (now1 now2 : Z) (t : Timing),
    now1 <> 0 ->
    effect isLoading now2 (effect isLoading now1 t) = effect isLoading now1 t.
Proof.
  intros il now1 now2 [st en] Hnow. unfold effect. cbn [startTime endTime].
  assert (Htruthy : truthy (Some now1) = true)
    by (cbn; apply negb_true_iff, Z.eqb_neq; exact Hnow).
  destruct il; cbn [andb negb].
  - destruct (truthy st) eqn:Hst; cbn [negb].
    + rewrite Hst. reflexivity.
    + rewrite Htruthy. reflexivity.
  - destruct (truthy st) eqn:Hst; cbn [andb]; [| reflexivity].
    destruct (truthy en) eqn:Hen; cbn [negb].
    + rewrite Hen. reflexivity.
    + rewrite Htruthy. reflexivity.
Qed.

Lemma X15_effect_settles_witness :
  effect true 200 (effect true 100 mounted) = effect true 100 mounted.
Proof.
  apply X15_effect_settles. discriminate.
Defined.

(** X16.  After a click on the refresh button made at a clock reading
    other than 0, whatever was recorded before: the first effect run that
    sees [isLoading] false ends the measurement, the start being the
    reading of the click and the end the reading of that run; an effect run
    that sees [isLoading] true leaves the measurement open, with the
    reading of the click as its start. *)
Theorem X16_refresh_closed_by_next_effect :
  forall (t : Timing) (now1 now2 : Z),
    now1 <> 0 ->
    effect false now2 (handleRefresh now1 t)
    = {| startTime := Some now1; endTime := Some now2 |}
    /\ effect true now2 (handleRefresh now1 t)
       = {| startTime := Some now1; endTime := None |}.
Proof.
  intros t now1 now2 Hnow. unfold handleRefresh, effect. cbn [startTime endTime].
  replace (truthy (Some now1)) with true
    by (symmetry; cbn; apply negb_true_iff, Z.eqb_neq; exact Hnow).
  split; reflexivity.
Qed.

Lemma X16_refresh_closed_by_next_effect_witness :
  effect false 405 (handleRefresh 400 (run [Effect true 100; Effect false 250] mounted))
  = {| startTime := Some 400; endTime := Some 405 |}.
Proof.
  apply (X16_refresh_closed_by_next_effect
           (run [Effect true 100; Effect false 250] mounted) 400 405).
  discriminate.
Defined.

End CSRFacts.
